(** * ADHDBOARD: the room synchronisation engine of [server.js]

    A shallow embedding of the Socket.IO server (the [roomStorage] table and
    its event handlers) and of the parts of the browser client that the
    synchronisation protocol relies on: the [canvas_data] and
    [game_move_received] handlers, the [isLocalUpdate] flag with its timers,
    the tic-tac-toe click handler and the ping-pong simulation loop.

    Conventions.
    - JavaScript numbers are kept abstract ([JSNum]): every function below is
      defined for an arbitrary interpretation of the arithmetic the source
      uses, so no result depends on rounding.  Rational numbers give one
      executable interpretation ([QNum]).
    - [roomStorage] is a plain object used as a map from room id to room; it
      is a [gmap].  Names inherited from [Object.prototype] are not room ids.
    - Elements are the object literals the client builds, one constructor
      per [type] tag.  Every element is an object, hence truthy.
    - [socket.emit] and [socket.to(room).emit] belong to Socket.IO; they are
      modelled by their documented contract: the first reaches the sender
      only, the second every socket that joined [room] except the sender.
    - Time on the client is a clock counting milliseconds; a [setTimeout]
      callback runs in the millisecond it is due. *)

From Stdlib Require Import ZArith QArith Qround Qabs.
From stdpp Require Import gmap strings list fin_maps.

Local Open Scope string_scope.
Local Open Scope list_scope.

(** ** JavaScript numbers *)

Class JSNum := {
  num : Type;
  num_lit : Q → num;                (* a numeric literal *)
  num_add : num → num → num;
  num_sub : num → num → num;
  num_mul : num → num → num;
  num_div : num → num → num;
  num_neg : num → num;              (* unary minus *)
  num_abs : num → num;              (* Math.abs *)
  num_floor : num → num;            (* Math.floor *)
  num_leb : num → num → bool;       (* a <= b *)
  num_ltb : num → num → bool;       (* a < b *)
  num_index : num → option nat      (* the array index a number denotes *)
}.

Declare Scope num_scope.
Delimit Scope num_scope with num.
Notation "a + b" := (num_add a b) : num_scope.
Notation "a - b" := (num_sub a b) : num_scope.
Notation "a * b" := (num_mul a b) : num_scope.
Notation "a / b" := (num_div a b) : num_scope.
Notation "a <=? b" := (num_leb a b) : num_scope.
Notation "a >=? b" := (num_leb b a) : num_scope.
Notation "a >? b" := (num_ltb b a) : num_scope.

Definition num_int `{JSNum} (z : Z) : num := num_lit (inject_Z z).

(** ** Truthiness *)

(** A string is truthy unless it is empty. *)
Definition truthy_string (s : string) : bool :=
  if decide (s = "") then false else true.

(** A field holding [null] or a string, as [playerX] or [playerLeft]. *)
Definition truthy_id (o : option string) : bool :=
  match o with
  | Some s => truthy_string s
  | None => false
  end.

(** [socket.id === field] for a field holding [null] or a string. *)
Definition id_is (sid : string) (o : option string) : bool :=
  bool_decide (o = Some sid).

(** ** Data model *)

Section DataModel.
Context `{JSNum}.

Record Point := { pt_x : num; pt_y : num }.

Inductive Mark := X | O.

#[global] Instance Mark_eq_dec : EqDecision Mark.
Proof. solve_decision. Defined.

Inductive TTTWinner := Won (m : Mark) | Draw.

Record TicTacToe := {
  ttt_x : num;
  ttt_y : num;
  ttt_size : num;
  board : list (option Mark);
  currentPlayer : Mark;
  ttt_winner : option TTTWinner;
  winLine : option (list nat);
  playerX : option string;
  playerO : option string
}.

Inductive Side := SideLeft | SideRight.

Record Ball := {
  ball_x : num;
  ball_y : num;
  ball_dx : num;
  ball_dy : num;
  ball_radius : num
}.

Record Paddle := {
  pad_x : num;
  pad_y : num;
  pad_width : num;
  pad_height : num;
  pad_score : num
}.

Record PingPong := {
  pp_x : num;
  pp_y : num;
  pp_width : num;
  pp_height : num;
  ball : Ball;
  paddleLeft : Paddle;
  paddleRight : Paddle;
  playerLeft : option string;
  playerRight : option string;
  gameStarted : bool;
  paused : bool;
  pp_winner : option Side;
  lastUpdate : num
}.

Inductive Game :=
  | GTicTacToe (t : TicTacToe)
  | GPingPong (p : PingPong).

(** The geometry a recognised shape carries, by [shapeType]. *)
Inductive Geometry :=
  | GeoPoints (pts : list Point)            (* line, triangle *)
  | GeoBox (x y width height : num)         (* rectangle, square *)
  | GeoCircle (x y radius : num)
  | GeoEllipse (x y radiusX radiusY : num).

Inductive Element :=
  | ELine (color : string) (brushSize : num) (tool : string)
          (opacity : option num) (points : list Point)
  | EShape (shapeType : string) (color : string) (brushSize : num)
           (geometry : Geometry)
  | EText (content : string) (x y : num) (color : string) (textSize : num)
  | EImage (data : string) (x y width height : num)
  | EGame (g : Game).

(** The [type] tag of an element. *)
Definition element_type (e : Element) : string :=
  match e with
  | ELine _ _ _ _ _ => "line"
  | EShape _ _ _ _ => "shape"
  | EText _ _ _ _ _ => "text"
  | EImage _ _ _ _ _ => "image"
  | EGame _ => "game"
  end.

Definition is_game (e : Element) : bool :=
  match e with EGame _ => true | _ => false end.

(** A laser stroke: never an element, only ever a [laser_pointer] payload. *)
Record Laser := { laser_points : list Point; laser_timestamp : num }.

Record ChatEntry := { text : string; senderId : string; timestamp : num }.

Record Room := {
  elements : list Element;
  chat : list ChatEntry;
  background : string
}.

(** ** Server state *)

(** [roomStorage] together with Socket.IO's table of room members
    ([io.sockets.adapter.rooms]). *)
Record Server := {
  roomStorage : gmap string Room;
  rooms : gmap string (gset string)
}.


(** Events a client sends. *)
Inductive ClientEvent :=
  | join_room (roomId : string)
  | new_element (room : string) (element : Element)
  | full_sync (room : string) (data : list Element)
  | chat_message (room : string) (text : string)
  | laser_pointer (room : string) (laser : Laser)
  | background_change (room : string) (background : string)
  | game_move (room : string) (gameIndex : nat) (game : Element)
  | disconnect.

(** Events the server sends. *)
Inductive ServerEvent :=
  | canvas_data (data : list Element)
  | chat_history (history : list ChatEntry)
  | background_updated (background : string)
  | element_received (el : Element)
  | chat_received (entry : ChatEntry)
  | laser_received (laser : Laser)
  | game_move_received (gameIndex : nat) (game : Element).

(** One call of [emit]: the sockets it reaches and what it carries. *)
Record Emission := { recipients : gset string; message : ServerEvent }.

(** Lines written to the console. *)
Inductive LogLine :=
  | LogJoined (sid roomId : string)
  | LogNewElement (room type : string)
  | LogFullSync (room : string) (count : nat)
  | LogChat (room text : string)
  | LogLaser (room : string)
  | LogBackground (room background : string)
  | LogGameMove (room : string) (gameIndex : nat) (player : option Mark)
  | LogGameUpdated (gameIndex : nat)
  | ErrGameNotFound (gameIndex : nat)
  | LogBroadcasting (others : Z) (room : string)
  | ErrRoomNotFound (room : string)
  | LogDisconnected (sid : string).

Definition Outcome : Type := Server * list Emission * list LogLine.

(** ** Socket.IO primitives *)

Definition members (s : Server) (room : string) : gset string :=
  default ∅ (rooms s !! room).

(** [socket.join(roomId)] *)
Definition socket_join (sid roomId : string) (s : Server) : Server :=
  {| roomStorage := roomStorage s;
     rooms := <[roomId := {[sid]} ∪ members s roomId]> (rooms s) |}.

(** [socket.emit(ev)]: to the sender alone. *)
Definition socket_emit (sid : string) (ev : ServerEvent) : Emission :=
  {| recipients := {[sid]}; message := ev |}.

(** [socket.to(room).emit(ev)]: to the room, the sender left out. *)
Definition socket_to_emit (s : Server) (sid room : string) (ev : ServerEvent)
  : Emission :=
  {| recipients := members s room ∖ {[sid]}; message := ev |}.

(** Leaving every room on disconnect; Socket.IO drops a room once empty. *)
Definition socket_leave_all (sid : string) (s : Server) : Server :=
  {| roomStorage := roomStorage s;
     rooms := filter (λ kv, kv.2 ≠ ∅) ((λ m, m ∖ {[sid]}) <$> rooms s) |}.

Definition set_storage (st : gmap string Room) (s : Server) : Server :=
  {| roomStorage := st; rooms := rooms s |}.

(** ** Event handlers *)

Definition new_room : Room :=
  {| elements := []; chat := []; background := "dots" |}.

(** [roomStorage[roomId].background || 'dots'] *)
Definition background_or_dots (r : Room) : string :=
  if truthy_string (background r) then background r else "dots".

Definition room_snapshot (sid : string) (r : Room) : list Emission :=
  [ socket_emit sid (canvas_data (elements r));
    socket_emit sid (chat_history (chat r));
    socket_emit sid (background_updated (background_or_dots r)) ].

Definition on_join_room (sid roomId : string) (s : Server) : Outcome :=
  let s1 := socket_join sid roomId s in
  match roomStorage s1 !! roomId with
  | Some r => (s1, room_snapshot sid r, [LogJoined sid roomId])
  | None =>
      (set_storage (<[roomId := new_room]> (roomStorage s1)) s1,
       room_snapshot sid new_room, [LogJoined sid roomId])
  end.

Definition on_new_element (sid room : string) (element : Element) (s : Server)
  : Outcome :=
  match roomStorage s !! room with
  | Some r =>
      let r' := {| elements := elements r ++ [element];
                   chat := chat r; background := background r |} in
      (set_storage (<[room := r']> (roomStorage s)) s,
       [socket_to_emit s sid room (element_received element)],
       [LogNewElement room (element_type element)])
  | None => (s, [], [])
  end.

Definition on_full_sync (sid room : string) (data : list Element) (s : Server)
  : Outcome :=
  match roomStorage s !! room with
  | Some r =>
      let r' := {| elements := data; chat := chat r;
                   background := background r |} in
      (set_storage (<[room := r']> (roomStorage s)) s,
       [socket_to_emit s sid room (canvas_data data)],
       [LogFullSync room (length data)])
  | None => (s, [], [])
  end.

(** [now] is the value [Date.now()] returns inside the handler. *)
Definition on_chat_message (sid : string) (now : num) (room txt : string)
    (s : Server) : Outcome :=
  match roomStorage s !! room with
  | Some r =>
      let chatEntry := {| text := txt; senderId := sid; timestamp := now |} in
      let r' := {| elements := elements r; chat := chat r ++ [chatEntry];
                   background := background r |} in
      (set_storage (<[room := r']> (roomStorage s)) s,
       [socket_to_emit s sid room (chat_received chatEntry)],
       [LogChat room txt])
  | None => (s, [], [])
  end.

Definition on_laser_pointer (sid room : string) (laser : Laser) (s : Server)
  : Outcome :=
  match roomStorage s !! room with
  | Some _ =>
      (s, [socket_to_emit s sid room (laser_received laser)], [LogLaser room])
  | None => (s, [], [])
  end.

Definition on_background_change (sid room bg : string) (s : Server)
  : Outcome :=
  match roomStorage s !! room with
  | Some r =>
      let r' := {| elements := elements r; chat := chat r;
                   background := bg |} in
      (set_storage (<[room := r']> (roomStorage s)) s,
       [socket_to_emit s sid room (background_updated bg)],
       [LogBackground room bg])
  | None => (s, [], [])
  end.

(** [game.currentPlayer], as the first log line of [game_move] prints it. *)
Definition game_current_player (game : Element) : option Mark :=
  match game with
  | EGame (GTicTacToe t) => Some (currentPlayer t)
  | _ => None
  end.

(** [clientsInRoom ? clientsInRoom.size - 1 : 0] *)
Definition others_count (s : Server) (room : string) : Z :=
  match rooms s !! room with
  | Some m => (Z.of_nat (size m) - 1)%Z
  | None => 0%Z
  end.

Definition on_game_move (sid room : string) (gameIndex : nat) (game : Element)
    (s : Server) : Outcome :=
  let received := LogGameMove room gameIndex (game_current_player game) in
  match roomStorage s !! room with
  | Some r =>
      let '(s', line) :=
        match elements r !! gameIndex with
        | Some _ =>
            let r' := {| elements := <[gameIndex := game]> (elements r);
                         chat := chat r; background := background r |} in
            (set_storage (<[room := r']> (roomStorage s)) s,
             LogGameUpdated gameIndex)
        | None => (s, ErrGameNotFound gameIndex)
        end in
      (s',
       [socket_to_emit s sid room (game_move_received gameIndex game)],
       [received; line; LogBroadcasting (others_count s room) room])
  | None => (s, [], [received; ErrRoomNotFound room])
  end.

Definition on_disconnect (sid : string) (s : Server) : Outcome :=
  (socket_leave_all sid s, [], [LogDisconnected sid]).

(** The dispatcher: one event of connection [sid], handled to completion. *)
Definition handle (sid : string) (now : num) (ev : ClientEvent) (s : Server)
  : Outcome :=
  match ev with
  | join_room roomId => on_join_room sid roomId s
  | new_element room element => on_new_element sid room element s
  | full_sync room data => on_full_sync sid room data s
  | chat_message room txt => on_chat_message sid now room txt s
  | laser_pointer room laser => on_laser_pointer sid room laser s
  | background_change room bg => on_background_change sid room bg s
  | game_move room gameIndex game => on_game_move sid room gameIndex game s
  | disconnect => on_disconnect sid s
  end.

(** The room a room-scoped event addresses; [join_room] and [disconnect]
    are not room-scoped. *)
Definition event_room (ev : ClientEvent) : option string :=
  match ev with
  | join_room _ | disconnect => None
  | new_element room _ | full_sync room _ | chat_message room _
  | laser_pointer room _ | background_change room _
  | game_move room _ _ => Some room
  end.

Definition state_of (o : Outcome) : Server := o.1.1.
Definition emissions_of (o : Outcome) : list Emission := o.1.2.
Definition logs_of (o : Outcome) : list LogLine := o.2.

Definition is_laser_pointer (ev : ClientEvent) : bool :=
  match ev with laser_pointer _ _ => true | _ => false end.

Definition is_laser_received (em : Emission) : bool :=
  match message em with laser_received _ => true | _ => false end.

(** An incoming event with its sender and the clock reading at handling. *)
Record Incoming := { from : string; at_time : num; event : ClientEvent }.

(** The server loop: events are handled one after the other. *)
Fixpoint run (evs : list Incoming) (s : Server) : Outcome :=
  match evs with
  | [] => (s, [], [])
  | i :: rest =>
      let '(s1, out1, log1) := handle (from i) (at_time i) (event i) s in
      let '(s2, out2, log2) := run rest s1 in
      (s2, out1 ++ out2, log1 ++ log2)
  end.

(** ** Client state *)

(** Callbacks the client hands to [setTimeout]. *)
Inductive TimerCallback :=
  | ClearLocalUpdate        (* isLocalUpdate = false, after the final sync *)
  | FireThrottledSync       (* the body scheduled by throttledSync *)
  | FirePaddleSync.         (* the body scheduled by throttledPaddleSync *)

(** The globals of the client script that the synchronisation code reads or
    writes.  [clock] is the time in milliseconds and [timers] the pending
    [setTimeout] callbacks with the time each is due. *)
Record Client := {
  socket_id : string;
  currentRoom : string;
  paths : list Element;
  isLocalUpdate : bool;
  pingPongLoops : gset nat;
  selectedImage : option nat;
  isDraggingImage : bool;
  isResizingImage : bool;
  isDraggingPaddle : bool;
  draggedPaddleGame : option nat;
  draggedPaddleSide : option Side;
  syncTimeout : bool;
  paddleSyncTimeout : bool;
  clock : nat;
  timers : list (nat * TimerCallback)
}.

Definition set_paths (l : list Element) (c : Client) : Client :=
  {| socket_id := socket_id c; currentRoom := currentRoom c; paths := l;
     isLocalUpdate := isLocalUpdate c; pingPongLoops := pingPongLoops c;
     selectedImage := selectedImage c; isDraggingImage := isDraggingImage c;
     isResizingImage := isResizingImage c;
     isDraggingPaddle := isDraggingPaddle c;
     draggedPaddleGame := draggedPaddleGame c;
     draggedPaddleSide := draggedPaddleSide c; syncTimeout := syncTimeout c;
     paddleSyncTimeout := paddleSyncTimeout c; clock := clock c;
     timers := timers c |}.

Definition set_isLocalUpdate (b : bool) (c : Client) : Client :=
  {| socket_id := socket_id c; currentRoom := currentRoom c;
     paths := paths c; isLocalUpdate := b; pingPongLoops := pingPongLoops c;
     selectedImage := selectedImage c; isDraggingImage := isDraggingImage c;
     isResizingImage := isResizingImage c;
     isDraggingPaddle := isDraggingPaddle c;
     draggedPaddleGame := draggedPaddleGame c;
     draggedPaddleSide := draggedPaddleSide c; syncTimeout := syncTimeout c;
     paddleSyncTimeout := paddleSyncTimeout c; clock := clock c;
     timers := timers c |}.

Definition set_pingPongLoops (l : gset nat) (c : Client) : Client :=
  {| socket_id := socket_id c; currentRoom := currentRoom c;
     paths := paths c; isLocalUpdate := isLocalUpdate c; pingPongLoops := l;
     selectedImage := selectedImage c; isDraggingImage := isDraggingImage c;
     isResizingImage := isResizingImage c;
     isDraggingPaddle := isDraggingPaddle c;
     draggedPaddleGame := draggedPaddleGame c;
     draggedPaddleSide := draggedPaddleSide c; syncTimeout := syncTimeout c;
     paddleSyncTimeout := paddleSyncTimeout c; clock := clock c;
     timers := timers c |}.

Definition set_selectedImage (o : option nat) (c : Client) : Client :=
  {| socket_id := socket_id c; currentRoom := currentRoom c;
     paths := paths c; isLocalUpdate := isLocalUpdate c;
     pingPongLoops := pingPongLoops c; selectedImage := o;
     isDraggingImage := isDraggingImage c;
     isResizingImage := isResizingImage c;
     isDraggingPaddle := isDraggingPaddle c;
     draggedPaddleGame := draggedPaddleGame c;
     draggedPaddleSide := draggedPaddleSide c; syncTimeout := syncTimeout c;
     paddleSyncTimeout := paddleSyncTimeout c; clock := clock c;
     timers := timers c |}.

Definition set_syncTimeout (b : bool) (c : Client) : Client :=
  {| socket_id := socket_id c; currentRoom := currentRoom c;
     paths := paths c; isLocalUpdate := isLocalUpdate c;
     pingPongLoops := pingPongLoops c; selectedImage := selectedImage c;
     isDraggingImage := isDraggingImage c;
     isResizingImage := isResizingImage c;
     isDraggingPaddle := isDraggingPaddle c;
     draggedPaddleGame := draggedPaddleGame c;
     draggedPaddleSide := draggedPaddleSide c; syncTimeout := b;
     paddleSyncTimeout := paddleSyncTimeout c; clock := clock c;
     timers := timers c |}.

Definition set_paddleSyncTimeout (b : bool) (c : Client) : Client :=
  {| socket_id := socket_id c; currentRoom := currentRoom c;
     paths := paths c; isLocalUpdate := isLocalUpdate c;
     pingPongLoops := pingPongLoops c; selectedImage := selectedImage c;
     isDraggingImage := isDraggingImage c;
     isResizingImage := isResizingImage c;
     isDraggingPaddle := isDraggingPaddle c;
     draggedPaddleGame := draggedPaddleGame c;
     draggedPaddleSide := draggedPaddleSide c; syncTimeout := syncTimeout c;
     paddleSyncTimeout := b; clock := clock c; timers := timers c |}.

Definition set_clock (t : nat) (c : Client) : Client :=
  {| socket_id := socket_id c; currentRoom := currentRoom c;
     paths := paths c; isLocalUpdate := isLocalUpdate c;
     pingPongLoops := pingPongLoops c; selectedImage := selectedImage c;
     isDraggingImage := isDraggingImage c;
     isResizingImage := isResizingImage c;
     isDraggingPaddle := isDraggingPaddle c;
     draggedPaddleGame := draggedPaddleGame c;
     draggedPaddleSide := draggedPaddleSide c; syncTimeout := syncTimeout c;
     paddleSyncTimeout := paddleSyncTimeout c; clock := t;
     timers := timers c |}.

Definition set_timers (l : list (nat * TimerCallback)) (c : Client) : Client :=
  {| socket_id := socket_id c; currentRoom := currentRoom c;
     paths := paths c; isLocalUpdate := isLocalUpdate c;
     pingPongLoops := pingPongLoops c; selectedImage := selectedImage c;
     isDraggingImage := isDraggingImage c;
     isResizingImage := isResizingImage c;
     isDraggingPaddle := isDraggingPaddle c;
     draggedPaddleGame := draggedPaddleGame c;
     draggedPaddleSide := draggedPaddleSide c; syncTimeout := syncTimeout c;
     paddleSyncTimeout := paddleSyncTimeout c; clock := clock c;
     timers := l |}.

(** [handlePointerDown] on the image at [imageIndex]: the image is selected
    and a drag begins. *)
Definition start_image_drag (imageIndex : nat) (c : Client) : Client :=
  {| socket_id := socket_id c; currentRoom := currentRoom c;
     paths := paths c; isLocalUpdate := isLocalUpdate c;
     pingPongLoops := pingPongLoops c; selectedImage := Some imageIndex;
     isDraggingImage := true; isResizingImage := isResizingImage c;
     isDraggingPaddle := isDraggingPaddle c;
     draggedPaddleGame := draggedPaddleGame c;
     draggedPaddleSide := draggedPaddleSide c; syncTimeout := syncTimeout c;
     paddleSyncTimeout := paddleSyncTimeout c; clock := clock c;
     timers := timers c |}.

(** The end of [handlePointerUp]: the drag state is reset. *)
Definition reset_pointer_state (c : Client) : Client :=
  {| socket_id := socket_id c; currentRoom := currentRoom c;
     paths := paths c; isLocalUpdate := isLocalUpdate c;
     pingPongLoops := pingPongLoops c; selectedImage := selectedImage c;
     isDraggingImage := false; isResizingImage := false;
     isDraggingPaddle := false; draggedPaddleGame := None;
     draggedPaddleSide := None; syncTimeout := syncTimeout c;
     paddleSyncTimeout := paddleSyncTimeout c; clock := clock c;
     timers := timers c |}.

(** The globals as the script sets them up, on the connection [sid]. *)
Definition initial_client (sid : string) : Client :=
  {| socket_id := sid; currentRoom := "1"; paths := [];
     isLocalUpdate := false; pingPongLoops := ∅; selectedImage := None;
     isDraggingImage := false; isResizingImage := false;
     isDraggingPaddle := false; draggedPaddleGame := None;
     draggedPaddleSide := None; syncTimeout := false;
     paddleSyncTimeout := false; clock := 0; timers := [] |}.

(** What a client step yields: the new globals and the events it emitted. *)
Definition Step : Type := Client * list ClientEvent.

(** [setTimeout(cb, delay)] *)
Definition setTimeout (cb : TimerCallback) (delay : nat) (c : Client)
  : Client :=
  set_timers (timers c ++ [(clock c + delay, cb)]) c.

(** ** Ping-pong loops *)

(** [el.gameStarted && !el.winner] on a ping-pong element. *)
Definition pingpong_running (e : Element) : bool :=
  match e with
  | EGame (GPingPong g) => gameStarted g && bool_decide (pp_winner g = None)
  | _ => false
  end.

(** [startPingPongLoop(gameIndex)]: at most one interval per index. *)
Definition startPingPongLoop (gameIndex : nat) (c : Client) : Client :=
  if bool_decide (gameIndex ∈ pingPongLoops c) then c
  else set_pingPongLoops ({[gameIndex]} ∪ pingPongLoops c) c.

(** [clearInterval(pingPongLoops[i]); delete pingPongLoops[i]] *)
Definition stopPingPongLoop (gameIndex : nat) (c : Client) : Client :=
  set_pingPongLoops (pingPongLoops c ∖ {[gameIndex]}) c.

(** The [data.forEach] of the [canvas_data] handler, from index [index]. *)
Fixpoint start_loops_from (index : nat) (data : list Element) (c : Client)
  : Client :=
  match data with
  | [] => c
  | el :: rest =>
      let c1 := if pingpong_running el then startPingPongLoop index c
                else c in
      start_loops_from (S index) rest c1
  end.

(** ** Incoming server events *)

(** [socket.on('canvas_data', ...)] *)
Definition client_on_canvas_data (data : list Element) (c : Client) : Client :=
  if isLocalUpdate c then c
  else
    let c1 := start_loops_from 0 data c in
    let c2 := set_paths data c1 in
    if negb (isDraggingImage c2) && negb (isResizingImage c2)
    then set_selectedImage None c2
    else c2.

(** [{...paths[gameIndex], ...data.game}].  The incoming object carries
    every field of its variant, the [type] and [gameType] tags included, and
    each overrides the local one; whatever only the local object had is read
    by no code that dispatches on the resulting tags. *)
Definition spread_game (local incoming : Element) : Element := incoming.

(** [socket.on('game_move_received', ...)] *)
Definition client_on_game_move_received (gameIndex : nat) (game : Element)
    (c : Client) : Client :=
  match paths c !! gameIndex with
  | Some local => set_paths (<[gameIndex := spread_game local game]> (paths c)) c
  | None => c
  end.

(** ** Outgoing synchronisation *)

(** [cleanPathsForSync()]: copies of the elements without the cached image
    object, which this model does not carry. *)
Definition cleanPathsForSync (c : Client) : list Element := paths c.

(** [syncToServer()] *)
Definition syncToServer (c : Client) : Step :=
  (c, [full_sync (currentRoom c) (cleanPathsForSync c)]).

(** [throttledSync()] *)
Definition throttledSync (c : Client) : Client :=
  if syncTimeout c then c
  else setTimeout FireThrottledSync 100 (set_syncTimeout true c).

(** [throttledPaddleSync()] *)
Definition throttledPaddleSync (c : Client) : Client :=
  if paddleSyncTimeout c then c
  else setTimeout FirePaddleSync 50 (set_paddleSyncTimeout true c).

(** [const game = paths[gameIndex]; if (game) socket.emit('game_move', ...)] *)
Definition emit_game_move (gameIndex : nat) (c : Client) : list ClientEvent :=
  match paths c !! gameIndex with
  | Some game => [game_move (currentRoom c) gameIndex game]
  | None => []
  end.

(** The body of a timer callback. *)
Definition fire (cb : TimerCallback) (c : Client) : Step :=
  match cb with
  | ClearLocalUpdate => (set_isLocalUpdate false c, [])
  | FireThrottledSync =>
      (set_syncTimeout false c,
       [full_sync (currentRoom c) (cleanPathsForSync c)])
  | FirePaddleSync =>
      (set_paddleSyncTimeout false c,
       match draggedPaddleGame c with
       | Some i => emit_game_move i c
       | None => []
       end)
  end.

Fixpoint fire_all (cbs : list TimerCallback) (c : Client) : Step :=
  match cbs with
  | [] => (c, [])
  | cb :: rest =>
      let '(c1, out1) := fire cb c in
      let '(c2, out2) := fire_all rest c1 in
      (c2, out1 ++ out2)
  end.

Definition due_at (t : nat) (tm : nat * TimerCallback) : bool :=
  bool_decide (tm.1 = t).

(** One millisecond passes: the timers now due run in the order they were
    set. *)
Definition tick_ms (c : Client) : Step :=
  let t := S (clock c) in
  let due := filter (λ tm, due_at t tm = true) (timers c) in
  let later := filter (λ tm, due_at t tm = false) (timers c) in
  fire_all (due.*2) (set_clock t (set_timers later c)).

(** [ms] milliseconds pass with no other event. *)
Fixpoint elapse (ms : nat) (c : Client) : Step :=
  match ms with
  | 0 => (c, [])
  | S n =>
      let '(c1, out1) := tick_ms c in
      let '(c2, out2) := elapse n c1 in
      (c2, out1 ++ out2)
  end.

(** The flag is up and exactly the timers due at [due] will lower it. *)
Definition flag_held_until (due : nat) (c : Client) : Prop :=
  isLocalUpdate c = true
  ∧ clock c < due
  ∧ (due, ClearLocalUpdate) ∈ timers c
  ∧ ∀ t, (t, ClearLocalUpdate) ∈ timers c → t = due.

(** The part of [handlePointerUp] that follows the finished stroke: the
    final sync after an image drag or resize, the final paddle sync, and the
    reset of the drag state.  [moved_gt_5] is the test [moved > 5]. *)
Definition handlePointerUp_sync (moved_gt_5 : bool) (c : Client) : Step :=
  let '(c1, out1) :=
    if (isDraggingImage c || isResizingImage c)
       && bool_decide (selectedImage c ≠ None) && moved_gt_5
    then
      let c' := set_isLocalUpdate true c in
      (setTimeout ClearLocalUpdate 500 c',
       [full_sync (currentRoom c') (paths c')])
    else (c, []) in
  let out2 :=
    if isDraggingPaddle c1 then
      match draggedPaddleGame c1 with
      | Some i => emit_game_move i c1
      | None => []
      end
    else [] in
  (reset_pointer_state c1, out1 ++ out2).

(** ** Ping-pong simulation *)

Definition set_ball (b : Ball) (g : PingPong) : PingPong :=
  {| pp_x := pp_x g; pp_y := pp_y g; pp_width := pp_width g;
     pp_height := pp_height g; ball := b; paddleLeft := paddleLeft g;
     paddleRight := paddleRight g; playerLeft := playerLeft g;
     playerRight := playerRight g; gameStarted := gameStarted g;
     paused := paused g; pp_winner := pp_winner g;
     lastUpdate := lastUpdate g |}.

Definition set_paddleLeft (p : Paddle) (g : PingPong) : PingPong :=
  {| pp_x := pp_x g; pp_y := pp_y g; pp_width := pp_width g;
     pp_height := pp_height g; ball := ball g; paddleLeft := p;
     paddleRight := paddleRight g; playerLeft := playerLeft g;
     playerRight := playerRight g; gameStarted := gameStarted g;
     paused := paused g; pp_winner := pp_winner g;
     lastUpdate := lastUpdate g |}.

Definition set_paddleRight (p : Paddle) (g : PingPong) : PingPong :=
  {| pp_x := pp_x g; pp_y := pp_y g; pp_width := pp_width g;
     pp_height := pp_height g; ball := ball g; paddleLeft := paddleLeft g;
     paddleRight := p; playerLeft := playerLeft g;
     playerRight := playerRight g; gameStarted := gameStarted g;
     paused := paused g; pp_winner := pp_winner g;
     lastUpdate := lastUpdate g |}.

Definition set_pp_winner (w : option Side) (g : PingPong) : PingPong :=
  {| pp_x := pp_x g; pp_y := pp_y g; pp_width := pp_width g;
     pp_height := pp_height g; ball := ball g; paddleLeft := paddleLeft g;
     paddleRight := paddleRight g; playerLeft := playerLeft g;
     playerRight := playerRight g; gameStarted := gameStarted g;
     paused := paused g; pp_winner := w; lastUpdate := lastUpdate g |}.

Definition set_lastUpdate (t : num) (g : PingPong) : PingPong :=
  {| pp_x := pp_x g; pp_y := pp_y g; pp_width := pp_width g;
     pp_height := pp_height g; ball := ball g; paddleLeft := paddleLeft g;
     paddleRight := paddleRight g; playerLeft := playerLeft g;
     playerRight := playerRight g; gameStarted := gameStarted g;
     paused := paused g; pp_winner := pp_winner g; lastUpdate := t |}.

(** [paddle.score++] *)
Definition add_point (p : Paddle) : Paddle :=
  {| pad_x := pad_x p; pad_y := pad_y p; pad_width := pad_width p;
     pad_height := pad_height p;
     pad_score := (pad_score p + num_int 1)%num |}.

(** [resetBall(game)]; [r1] and [r2] are the two values [Math.random()]
    returns. *)
Definition resetBall (r1 r2 : num) (g : PingPong) : PingPong :=
  set_ball
    {| ball_x := (pp_width g / num_int 2)%num;
       ball_y := (pp_height g / num_int 2)%num;
       ball_dx := ((if (r1 >? num_lit 0.5)%num then num_int 1
                    else num_int (-1)) * num_int 4)%num;
       ball_dy := ((r2 - num_lit 0.5) * num_int 4)%num;
       ball_radius := ball_radius (ball g) |} g.

(** [ball.x += ball.dx * deltaTime; ball.y += ball.dy * deltaTime] *)
Definition move_ball (deltaTime : num) (b : Ball) : Ball :=
  {| ball_x := (ball_x b + ball_dx b * deltaTime)%num;
     ball_y := (ball_y b + ball_dy b * deltaTime)%num;
     ball_dx := ball_dx b; ball_dy := ball_dy b;
     ball_radius := ball_radius b |}.

(** Collision with the top and bottom walls. *)
Definition bounce_walls (height : num) (b : Ball) : Ball :=
  let top := (ball_y b - ball_radius b <=? num_int 0)%num in
  if top || (ball_y b + ball_radius b >=? height)%num then
    {| ball_x := ball_x b;
       ball_y := if top then ball_radius b
                 else (height - ball_radius b)%num;
       ball_dx := ball_dx b;
       ball_dy := (ball_dy b * num_int (-1))%num;
       ball_radius := ball_radius b |}
  else b.

(** The spin a paddle gives: [(hitPos - 0.5) * 8]. *)
Definition spin (p : Paddle) (b : Ball) : num :=
  (((ball_y b - pad_y p) / pad_height p - num_lit 0.5) * num_int 8)%num.

(** Collision with the left paddle. *)
Definition hit_paddleLeft (p : Paddle) (b : Ball) : Ball :=
  if (ball_x b - ball_radius b <=? pad_x p + pad_width p)%num
     && (ball_x b >=? pad_x p)%num
     && (ball_y b >=? pad_y p)%num
     && (ball_y b <=? pad_y p + pad_height p)%num
  then
    {| ball_x := (pad_x p + pad_width p + ball_radius b)%num;
       ball_y := ball_y b;
       ball_dx := num_abs (ball_dx b);
       ball_dy := spin p b;
       ball_radius := ball_radius b |}
  else b.

(** Collision with the right paddle. *)
Definition hit_paddleRight (p : Paddle) (b : Ball) : Ball :=
  if (ball_x b + ball_radius b >=? pad_x p)%num
     && (ball_x b <=? pad_x p + pad_width p)%num
     && (ball_y b >=? pad_y p)%num
     && (ball_y b <=? pad_y p + pad_height p)%num
  then
    {| ball_x := (pad_x p - ball_radius b)%num;
       ball_y := ball_y b;
       ball_dx := num_neg (num_abs (ball_dx b));
       ball_dy := spin p b;
       ball_radius := ball_radius b |}
  else b.

(** A simulation step in progress: the game, how many values [Math.random]
    has handed out, and whether the interval has been cleared. *)
Definition Sim : Type := PingPong * nat * bool.

(** The ball leaves on the left: a point for the right paddle. *)
Definition score_right (rnd : nat → num) (st : Sim) : Sim :=
  let '(g, n, stopped) := st in
  if (ball_x (ball g) - ball_radius (ball g) <=? num_int 0)%num then
    let g1 := set_paddleRight (add_point (paddleRight g)) g in
    let g2 := resetBall (rnd n) (rnd (S n)) g1 in
    if (pad_score (paddleRight g2) >=? num_int 7)%num
    then (set_pp_winner (Some SideRight) g2, S (S n), true)
    else (g2, S (S n), stopped)
  else st.

(** The ball leaves on the right: a point for the left paddle. *)
Definition score_left (rnd : nat → num) (st : Sim) : Sim :=
  let '(g, n, stopped) := st in
  if (ball_x (ball g) + ball_radius (ball g) >=? pp_width g)%num then
    let g1 := set_paddleLeft (add_point (paddleLeft g)) g in
    let g2 := resetBall (rnd n) (rnd (S n)) g1 in
    if (pad_score (paddleLeft g2) >=? num_int 7)%num
    then (set_pp_winner (Some SideLeft) g2, S (S n), true)
    else (g2, S (S n), stopped)
  else st.

(** The block guarded by [socket.id === game.playerLeft]. *)
Definition physics_step (deltaTime : num) (rnd : nat → num) (g : PingPong)
  : Sim :=
  let b1 := move_ball deltaTime (ball g) in
  let b2 := bounce_walls (pp_height g) b1 in
  let b3 := hit_paddleLeft (paddleLeft g) b2 in
  let b4 := hit_paddleRight (paddleRight g) b3 in
  score_left rnd (score_right rnd (set_ball b4 g, 0, false)).

(** The callback [startPingPongLoop] hands to [setInterval], run for the
    game at [gameIndex]; [now] is [Date.now()] and [rnd k] the [k]-th value
    of [Math.random()] within this run. *)
Definition pingpong_tick (gameIndex : nat) (now : num) (rnd : nat → num)
    (c : Client) : Step :=
  match paths c !! gameIndex with
  | Some (EGame (GPingPong game)) =>
      if bool_decide (pp_winner game ≠ None) || negb (gameStarted game)
         || paused game
      then (c, [])
      else if negb (truthy_id (playerLeft game))
              || negb (truthy_id (playerRight game))
      then (c, [])
      else
        let deltaTime := ((now - lastUpdate game) / num_lit 16.67)%num in
        let game1 := set_lastUpdate now game in
        if id_is (socket_id c) (playerLeft game1) then
          let '(game2, _, stopped) := physics_step deltaTime rnd game1 in
          let updated := EGame (GPingPong game2) in
          let c1 := set_paths (<[gameIndex := updated]> (paths c)) c in
          let c2 := if stopped then stopPingPongLoop gameIndex c1 else c1 in
          (c2, [game_move (currentRoom c) gameIndex updated])
        else
          (set_paths (<[gameIndex := EGame (GPingPong game1)]> (paths c)) c,
           [])
  | _ => (stopPingPongLoop gameIndex c, [])
  end.

(** The interval runs only while [pingPongLoops] holds it. *)
Definition interval_fires (gameIndex : nat) (now : num) (rnd : nat → num)
    (c : Client) : Step :=
  if bool_decide (gameIndex ∈ pingPongLoops c)
  then pingpong_tick gameIndex now rnd c
  else (c, []).

(** The ball of the element at [gameIndex], when it is a ping-pong game. *)
Definition ball_at (gameIndex : nat) (l : list Element) : option Ball :=
  match l !! gameIndex with
  | Some (EGame (GPingPong g)) => Some (ball g)
  | _ => None
  end.

Definition playerLeft_at (gameIndex : nat) (l : list Element)
  : option string :=
  match l !! gameIndex with
  | Some (EGame (GPingPong g)) => playerLeft g
  | _ => None
  end.

(** ** Tic-tac-toe *)

Definition set_players (px po : option string) (t : TicTacToe) : TicTacToe :=
  {| ttt_x := ttt_x t; ttt_y := ttt_y t; ttt_size := ttt_size t;
     board := board t; currentPlayer := currentPlayer t;
     ttt_winner := ttt_winner t; winLine := winLine t;
     playerX := px; playerO := po |}.

Definition other_mark (m : Mark) : Mark :=
  match m with X => O | O => X end.

Definition lines : list (nat * nat * nat) :=
  [ (0, 1, 2); (3, 4, 5); (6, 7, 8);
    (0, 3, 6); (1, 4, 7); (2, 5, 8);
    (0, 4, 8); (2, 4, 6) ].

(** [board[a] && board[a] === board[b] && board[a] === board[c]] *)
Definition line_winner (b : list (option Mark)) (line : nat * nat * nat)
  : option Mark :=
  let '(a1, a2, a3) := line in
  match b !! a1 with
  | Some (Some m) =>
      if bool_decide (b !! a2 = Some (Some m))
         && bool_decide (b !! a3 = Some (Some m))
      then Some m else None
  | _ => None
  end.

Fixpoint first_winning_line (b : list (option Mark))
    (ls : list (nat * nat * nat)) : option (Mark * (nat * nat * nat)) :=
  match ls with
  | [] => None
  | line :: rest =>
      match line_winner b line with
      | Some m => Some (m, line)
      | None => first_winning_line b rest
      end
  end.

(** [checkTicTacToeWinner(board)]: the winner and the winning line, a draw
    once no cell is [null], otherwise [null]. *)
Definition checkTicTacToeWinner (b : list (option Mark))
  : option (TTTWinner * option (list nat)) :=
  match first_winning_line b lines with
  | Some (m, (a1, a2, a3)) => Some (Won m, Some [a1; a2; a3])
  | None =>
      if forallb (λ cell, bool_decide (cell ≠ None)) b
      then Some (Draw, None)
      else None
  end.

(** The click lies within the bounds of the game. *)
Definition in_bounds (pos : Point) (t : TicTacToe) : bool :=
  (pt_x pos >=? ttt_x t)%num && (pt_x pos <=? ttt_x t + ttt_size t)%num
  && (pt_y pos >=? ttt_y t)%num && (pt_y pos <=? ttt_y t + ttt_size t)%num.

(** [row * 3 + col] for the clicked cell. *)
Definition cellIndex (pos : Point) (t : TicTacToe) : num :=
  let cellSize := (ttt_size t / num_int 3)%num in
  let col := num_floor ((pt_x pos - ttt_x t) / cellSize)%num in
  let row := num_floor ((pt_y pos - ttt_y t) / cellSize)%num in
  (row * num_int 3 + col)%num.

(** The cell [board[cellIndex]] when it holds [null]: a number that is no
    index of the board reads [undefined], which is not [null]. *)
Definition null_cell (b : list (option Mark)) (k : num) : option nat :=
  match num_index k with
  | Some i => if bool_decide (b !! i = Some None) then Some i else None
  | None => None
  end.

(** The players after the two assignments that precede the turn check. *)
Definition assign_players (me : string) (t : TicTacToe) : TicTacToe :=
  let px := if truthy_id (playerX t) then playerX t else Some me in
  let po := if negb (truthy_id (playerO t)) && negb (id_is me px)
            then Some me else playerO t in
  set_players px po t.

(** [game.board[cellIndex] = game.currentPlayer] followed by the check for a
    winner. *)
Definition place_mark (i : nat) (t : TicTacToe) : TicTacToe :=
  let b := <[i := Some (currentPlayer t)]> (board t) in
  match checkTicTacToeWinner b with
  | Some (w, l) =>
      {| ttt_x := ttt_x t; ttt_y := ttt_y t; ttt_size := ttt_size t;
         board := b; currentPlayer := currentPlayer t;
         ttt_winner := Some w; winLine := l;
         playerX := playerX t; playerO := playerO t |}
  | None =>
      {| ttt_x := ttt_x t; ttt_y := ttt_y t; ttt_size := ttt_size t;
         board := b; currentPlayer := other_mark (currentPlayer t);
         ttt_winner := ttt_winner t; winLine := winLine t;
         playerX := playerX t; playerO := playerO t |}
  end.

(** Connection [me] is recorded as the player whose turn it is. *)
Definition holds_turn (me : string) (t : TicTacToe) : Prop :=
  (currentPlayer t = X ∧ playerX t = Some me)
  ∨ (currentPlayer t = O ∧ playerO t = Some me).

(** What the tic-tac-toe branch of [handleGameClick] does with one game:
    the game afterwards, the events emitted, and whether the click was
    consumed ([return true]) or the loop goes on to the next element. *)
Record Click := {
  game_after : TicTacToe;
  emitted : list ClientEvent;
  consumed : bool
}.

(** The tic-tac-toe branch of [handleGameClick] for connection [me] and the
    game [t] found at index [i] of [paths]. *)
Definition click_tictactoe (me room : string) (i : nat) (pos : Point)
    (t : TicTacToe) : Click :=
  if in_bounds pos t then
    if bool_decide (ttt_winner t ≠ None) then
      {| game_after := t; emitted := []; consumed := true |}
    else
      let t1 := assign_players me t in
      let isPlayerX := id_is me (playerX t1) in
      let isPlayerO := id_is me (playerO t1) in
      if (bool_decide (currentPlayer t1 = X) && negb isPlayerX)
         || (bool_decide (currentPlayer t1 = O) && negb isPlayerO)
      then {| game_after := t1; emitted := []; consumed := true |}
      else
        match null_cell (board t1) (cellIndex pos t1) with
        | Some cell =>
            let t2 := place_mark cell t1 in
            {| game_after := t2;
               emitted := [game_move room i (EGame (GTicTacToe t2))];
               consumed := true |}
        | None => {| game_after := t1; emitted := []; consumed := false |}
        end
  else {| game_after := t; emitted := []; consumed := false |}.

(** ** Placing a game *)

(** The tic-tac-toe game [placeGame] builds at [pos]. *)
Definition new_tictactoe (pos : Point) : TicTacToe :=
  {| ttt_x := pt_x pos; ttt_y := pt_y pos; ttt_size := num_int 300;
     board := replicate 9 None; currentPlayer := X;
     ttt_winner := None; winLine := None;
     playerX := None; playerO := None |}.

(** The ping-pong game [placeGame] builds at [pos]; [now] is [Date.now()]. *)
Definition new_pingpong (pos : Point) (now : num) : PingPong :=
  {| pp_x := pt_x pos; pp_y := pt_y pos;
     pp_width := num_int 600; pp_height := num_int 400;
     ball := {| ball_x := num_int 300; ball_y := num_int 200;
                ball_dx := num_int 4; ball_dy := num_int 3;
                ball_radius := num_int 8 |};
     paddleLeft := {| pad_x := num_int 20; pad_y := num_int 170;
                      pad_width := num_int 12; pad_height := num_int 60;
                      pad_score := num_int 0 |};
     paddleRight := {| pad_x := num_int 568; pad_y := num_int 170;
                       pad_width := num_int 12; pad_height := num_int 60;
                       pad_score := num_int 0 |};
     playerLeft := None; playerRight := None;
     gameStarted := false; paused := false; pp_winner := None;
     lastUpdate := now |}.

(** A trace with its [laser_pointer] events taken out. *)
Definition without_lasers (evs : list Incoming) : list Incoming :=
  filter (λ i, is_laser_pointer (event i) = false) evs.

End DataModel.

(** ** Further parts of the client *)

(** [Math.max] and [Math.min], which only the paddle drag uses. *)
Class JSMath `{JSNum} := {
  num_max : num → num → num;
  num_min : num → num → num
}.

Section ClientGames.
Context `{JSNum}.

(** The room an event of any kind names. *)
Definition addressed_room (ev : ClientEvent) : option string :=
  match ev with
  | join_room roomId => Some roomId
  | _ => event_room ev
  end.

(** *** Clicks on a ping-pong game *)

Definition set_playerLeft (o : option string) (g : PingPong) : PingPong :=
  {| pp_x := pp_x g; pp_y := pp_y g; pp_width := pp_width g;
     pp_height := pp_height g; ball := ball g; paddleLeft := paddleLeft g;
     paddleRight := paddleRight g; playerLeft := o;
     playerRight := playerRight g; gameStarted := gameStarted g;
     paused := paused g; pp_winner := pp_winner g;
     lastUpdate := lastUpdate g |}.

Definition set_playerRight (o : option string) (g : PingPong) : PingPong :=
  {| pp_x := pp_x g; pp_y := pp_y g; pp_width := pp_width g;
     pp_height := pp_height g; ball := ball g; paddleLeft := paddleLeft g;
     paddleRight := paddleRight g; playerLeft := playerLeft g;
     playerRight := o; gameStarted := gameStarted g;
     paused := paused g; pp_winner := pp_winner g;
     lastUpdate := lastUpdate g |}.

Definition set_gameStarted (b : bool) (g : PingPong) : PingPong :=
  {| pp_x := pp_x g; pp_y := pp_y g; pp_width := pp_width g;
     pp_height := pp_height g; ball := ball g; paddleLeft := paddleLeft g;
     paddleRight := paddleRight g; playerLeft := playerLeft g;
     playerRight := playerRight g; gameStarted := b;
     paused := paused g; pp_winner := pp_winner g;
     lastUpdate := lastUpdate g |}.

(** The click lies within the bounds of the table. *)
Definition on_table (pos : Point) (g : PingPong) : bool :=
  (pt_x pos >=? pp_x g)%num && (pt_x pos <=? pp_x g + pp_width g)%num
  && (pt_y pos >=? pp_y g)%num && (pt_y pos <=? pp_y g + pp_height g)%num.

(** The click lies on paddle [p] or within 20 units of it. *)
Definition on_paddle (pos : Point) (g : PingPong) (p : Paddle) : bool :=
  let paddleX := (pp_x g + pad_x p)%num in
  let paddleY := (pp_y g + pad_y p)%num in
  (pt_x pos >=? paddleX - num_int 20)%num
  && (pt_x pos <=? paddleX + pad_width p + num_int 20)%num
  && (pt_y pos >=? paddleY - num_int 20)%num
  && (pt_y pos <=? paddleY + pad_height p + num_int 20)%num.

(** What the ping-pong branch of [handleGameClick] does with one game: the
    game afterwards, the events emitted, whether the click was consumed,
    the paddle whose drag begins, and whether [startPingPongLoop] was
    called. *)
Record PaddleClick := {
  pp_after : PingPong;
  pp_emitted : list ClientEvent;
  pp_consumed : bool;
  pp_drag : option Side;
  pp_loop : bool
}.

(** The start of the game once both players are there, the last step of
    either paddle branch. *)
Definition start_if_ready (room : string) (i : nat) (g : PingPong)
  : PingPong * list ClientEvent * bool :=
  if negb (gameStarted g) && truthy_id (playerLeft g)
     && truthy_id (playerRight g)
  then
    let g' := set_gameStarted true g in
    (g', [game_move room i (EGame (GPingPong g'))], true)
  else (g, [], false).

(** The ping-pong branch of [handleGameClick] for connection [me] and the
    game [g] found at index [i] of [paths]. *)
Definition click_pingpong (me room : string) (i : nat) (pos : Point)
    (g : PingPong) : PaddleClick :=
  if on_table pos g then
    if bool_decide (pp_winner g ≠ None) then
      {| pp_after := g; pp_emitted := []; pp_consumed := true;
         pp_drag := None; pp_loop := false |}
    else if on_paddle pos g (paddleLeft g) then
      let '(g1, out1) :=
        if negb (truthy_id (playerLeft g)) then
          let g' := set_playerLeft (Some me) g in
          (g', [game_move room i (EGame (GPingPong g'))])
        else (g, []) in
      let drag := if id_is me (playerLeft g1) then Some SideLeft else None in
      let '(g2, out2, loop) := start_if_ready room i g1 in
      {| pp_after := g2; pp_emitted := out1 ++ out2; pp_consumed := true;
         pp_drag := drag; pp_loop := loop |}
    else if on_paddle pos g (paddleRight g) then
      let '(g1, out1) :=
        if negb (truthy_id (playerRight g)) && negb (id_is me (playerLeft g))
        then
          let g' := set_playerRight (Some me) g in
          (g', [game_move room i (EGame (GPingPong g'))])
        else (g, []) in
      let drag := if id_is me (playerRight g1) then Some SideRight
                  else None in
      let '(g2, out2, loop) := start_if_ready room i g1 in
      {| pp_after := g2; pp_emitted := out1 ++ out2; pp_consumed := true;
         pp_drag := drag; pp_loop := loop |}
    else
      {| pp_after := g; pp_emitted := []; pp_consumed := true;
         pp_drag := None; pp_loop := false |}
  else
    {| pp_after := g; pp_emitted := []; pp_consumed := false;
       pp_drag := None; pp_loop := false |}.

(** [isDraggingPaddle = true; draggedPaddleGame = i; draggedPaddleSide = side] *)
Definition set_paddle_drag (i : nat) (side : Side) (c : Client) : Client :=
  {| socket_id := socket_id c; currentRoom := currentRoom c;
     paths := paths c; isLocalUpdate := isLocalUpdate c;
     pingPongLoops := pingPongLoops c; selectedImage := selectedImage c;
     isDraggingImage := isDraggingImage c;
     isResizingImage := isResizingImage c;
     isDraggingPaddle := true; draggedPaddleGame := Some i;
     draggedPaddleSide := Some side; syncTimeout := syncTimeout c;
     paddleSyncTimeout := paddleSyncTimeout c; clock := clock c;
     timers := timers c |}.

(** What [handleGameClick] yields: the globals, the events emitted, and the
    value returned. *)
Definition GameClick : Type := Client * list ClientEvent * bool.

(** The loop of [handleGameClick] from index [i] on; [rest] are the elements
    of [paths] from that index. *)
Fixpoint game_click_from (i : nat) (rest : list Element) (pos : Point)
    (c : Client) : GameClick :=
  match rest with
  | [] => (c, [], false)
  | EGame (GTicTacToe t) :: rest' =>
      let r := click_tictactoe (socket_id c) (currentRoom c) i pos t in
      let c1 := set_paths (<[i := EGame (GTicTacToe (game_after r))]>
                             (paths c)) c in
      if consumed r then (c1, emitted r, true)
      else
        let '(c2, out, handled) := game_click_from (S i) rest' pos c1 in
        (c2, emitted r ++ out, handled)
  | EGame (GPingPong g) :: rest' =>
      let r := click_pingpong (socket_id c) (currentRoom c) i pos g in
      let c1 := set_paths (<[i := EGame (GPingPong (pp_after r))]>
                             (paths c)) c in
      let c2 := match pp_drag r with
                | Some side => set_paddle_drag i side c1
                | None => c1
                end in
      let c3 := if pp_loop r then startPingPongLoop i c2 else c2 in
      if pp_consumed r then (c3, pp_emitted r, true)
      else
        let '(c4, out, handled) := game_click_from (S i) rest' pos c3 in
        (c4, pp_emitted r ++ out, handled)
  | _ :: rest' => game_click_from (S i) rest' pos c
  end.

(** [handleGameClick(pos)] *)
Definition handleGameClick (pos : Point) (c : Client) : GameClick :=
  game_click_from 0 (paths c) pos c.

(** Clicks on one tic-tac-toe game, each by a connection at a position, one
    after the other. *)
Fixpoint clicks_tictactoe (room : string) (i : nat)
    (clicks : list (string * Point)) (t : TicTacToe) : TicTacToe :=
  match clicks with
  | [] => t
  | (me, pos) :: rest =>
      clicks_tictactoe room i rest
        (game_after (click_tictactoe me room i pos t))
  end.

(** *** Placing a game, clearing the canvas *)

(** [placeGame(gameType, pos)]; [now] is [Date.now()]. *)
Definition placeGame (gameType : string) (pos : Point) (now : num)
    (c : Client) : Step :=
  if decide (gameType = "tictactoe") then
    let game := EGame (GTicTacToe (new_tictactoe pos)) in
    (set_paths (paths c ++ [game]) c, [new_element (currentRoom c) game])
  else if decide (gameType = "pingpong") then
    let game := EGame (GPingPong (new_pingpong pos now)) in
    let gameIndex := length (paths c) in
    (startPingPongLoop gameIndex (set_paths (paths c ++ [game]) c),
     [new_element (currentRoom c) game])
  else (c, []).

(** [clearAll()]; [confirmed] is the answer to the [confirm] dialog. *)
Definition clearAll (confirmed : bool) (c : Client) : Step :=
  if confirmed then
    syncToServer (set_selectedImage None (set_paths [] c))
  else (c, []).

(** *** Dragging a paddle *)

#[global] Instance Side_eq_dec : EqDecision Side.
Proof. solve_decision. Defined.

Definition set_pad_y (y : num) (p : Paddle) : Paddle :=
  {| pad_x := pad_x p; pad_y := y; pad_width := pad_width p;
     pad_height := pad_height p; pad_score := pad_score p |}.

(** [Math.max(0, Math.min(game.height - paddle.height,
    relativeY - paddle.height / 2))] *)
Definition paddle_target `{!JSMath} (g : PingPong) (p : Paddle)
    (relativeY : num) : num :=
  num_max (num_int 0)
    (num_min (pp_height g - pad_height p)
       (relativeY - pad_height p / num_int 2))%num.

(** The paddle the drag moves: its own side's, and only for its owner. *)
Definition drag_paddle `{!JSMath} (me : string) (side : option Side)
    (pos : Point) (g : PingPong) : PingPong :=
  let relativeY := (pt_y pos - pp_y g)%num in
  if bool_decide (side = Some SideLeft) && id_is me (playerLeft g) then
    set_paddleLeft
      (set_pad_y (paddle_target g (paddleLeft g) relativeY) (paddleLeft g)) g
  else if bool_decide (side = Some SideRight) && id_is me (playerRight g)
  then
    set_paddleRight
      (set_pad_y (paddle_target g (paddleRight g) relativeY) (paddleRight g))
      g
  else g.

(** The paddle branch of [handlePointerMove], for a pointer that is not part
    of a two-finger pan: [None] when no paddle is being dragged and the
    handler goes on to its other branches. *)
Definition handlePointerMove_paddle `{!JSMath} (pos : Point) (c : Client)
  : option Client :=
  if isDraggingPaddle c then
    match draggedPaddleGame c with
    | Some i =>
        match paths c !! i with
        | Some (EGame (GPingPong g)) =>
            let g' := drag_paddle (socket_id c) (draggedPaddleSide c) pos g in
            Some (throttledPaddleSync
                    (set_paths (<[i := EGame (GPingPong g')]> (paths c)) c))
        | _ => Some c
        end
    | None => None
    end
  else None.

End ClientGames.

(** ** Rational numbers as one interpretation of the arithmetic *)

#[global] Instance QNum : JSNum := {|
  num := Q;
  num_lit q := q;
  num_add := Qplus;
  num_sub := Qminus;
  num_mul := Qmult;
  num_div := Qdiv;
  num_neg := Qopp;
  num_abs := Qabs;
  num_floor q := inject_Z (Qfloor q);
  num_leb := Qle_bool;
  num_ltb a b := negb (Qle_bool b a);
  num_index q :=
    if Qeq_bool q (inject_Z (Qfloor q)) && (0 <=? Qfloor q)%Z
    then Some (Z.to_nat (Qfloor q)) else None
|}.


(** [Math.max] and [Math.min] on rational numbers. *)
#[global] Instance QMath : @JSMath QNum := {|
  num_max a b := if Qle_bool a b then b else a;
  num_min a b := if Qle_bool a b then a else b
|}.

(** In rational arithmetic: paddle [p] lies within the height of the table
    of [g]. *)
Definition paddle_on_table (g : @PingPong QNum) (p : @Paddle QNum) : Prop :=
  (0 <= pad_y p)%Q ∧ (pad_y p <= pp_height g - pad_height p)%Q.

(** ** Sample data *)

(** An integer as a number of [QNum]. *)
Definition zn (z : Z) : @num QNum := inject_Z z.

Definition pt (x y : Z) : @Point QNum :=
  {| pt_x := zn x; pt_y := zn y |}.

(** A freehand line of three points. *)
Definition line3 : @Element QNum :=
  ELine "#000000" (zn 3) "pen" None [pt 0 0; pt 5 5; pt 10 10].

Definition room_of (els : list (@Element QNum)) (bg : string) : Room :=
  {| elements := els; chat := []; background := bg |}.

(** Room ["1"] with members [A] and [B]. *)
Definition server_with (els : list (@Element QNum)) (bg : string)
  : Server :=
  {| roomStorage := {[ "1" := room_of els bg ]};
     rooms := {[ "1" := {[ "A"; "B" ]} ]} |}.

(** The tic-tac-toe game placed at (100, 100). *)
Definition tictactoe_100 : @TicTacToe QNum := new_tictactoe (pt 100 100).

(** A laser stroke of two points. *)
Definition laser2 : @Laser QNum :=
  {| laser_points := [pt 0 0; pt 9 9]; laser_timestamp := zn 1000 |}.

(** The game after [A] clicked its centre cell: the first move. *)
Definition tictactoe_after_A : @TicTacToe QNum :=
  game_after (click_tictactoe "A" "1" 0 (pt 250 250) tictactoe_100).

(** A ping-pong game in play: [A] holds the left paddle, [B] the right. *)
Definition pingpong_AB : @PingPong QNum :=
  {| pp_x := zn 0; pp_y := zn 0; pp_width := zn 600; pp_height := zn 400;
     ball := {| ball_x := zn 300; ball_y := zn 200; ball_dx := zn 4;
                ball_dy := zn 3; ball_radius := zn 8 |};
     paddleLeft := {| pad_x := zn 20; pad_y := zn 170; pad_width := zn 12;
                      pad_height := zn 60; pad_score := zn 0 |};
     paddleRight := {| pad_x := zn 568; pad_y := zn 170; pad_width := zn 12;
                       pad_height := zn 60; pad_score := zn 0 |};
     playerLeft := Some "A"; playerRight := Some "B";
     gameStarted := true; paused := false; pp_winner := None;
     lastUpdate := zn 0 |}.

(** A ball elsewhere on the table. *)
Definition ball_elsewhere : @Ball QNum :=
  {| ball_x := zn 100; ball_y := zn 100; ball_dx := zn (-4);
     ball_dy := zn 1; ball_radius := zn 8 |}.

(** The client of connection [sid] showing [els]. *)
Definition client_showing (sid : string) (els : list (@Element QNum))
  : Client := set_paths els (initial_client sid).

(** The client of connection [sid] showing [els] with the loop of the game
    at index 0 running. *)
Definition client_playing (sid : string) (els : list (@Element QNum))
  : Client := startPingPongLoop 0 (client_showing sid els).

(** [Math.random()] returning 0.75 every time. *)
Definition rnd_075 : nat → @num QNum := λ _, 3 # 4.

(** An image at (10, 10). *)
Definition image1 : @Element QNum :=
  EImage "/uploads/1.png" (zn 10) (zn 10) (zn 200) (zn 100).

(** Connection [A] showing one image, which it has begun to drag. *)
Definition client_dragging : Client :=
  start_image_drag 0 (client_showing "A" [image1]).

(** A game [A] has won with the middle row, [B] holding O. *)
Definition tictactoe_won : @TicTacToe QNum :=
  clicks_tictactoe "1" 0
    [ ("A", pt 250 250); ("B", pt 150 150); ("A", pt 150 250);
      ("B", pt 250 150); ("A", pt 350 250) ]
    tictactoe_100.

Definition incoming (sid : string) (ev : @ClientEvent QNum) : Incoming :=
  {| from := sid; at_time := zn 0; event := ev |}.

(** ** Notions the further properties are stated with *)

(** The three cells of [line] all hold the mark [m]. *)
Definition line_of (b : list (option Mark)) (m : Mark)
    (line : nat * nat * nat) : Prop :=
  b !! line.1.1 = Some (Some m) ∧ b !! line.1.2 = Some (Some m)
  ∧ b !! line.2 = Some (Some m).

(** No cell of the board is [null]. *)
Definition board_full (b : list (option Mark)) : Prop :=
  ∀ cell, cell ∈ b → cell ≠ None.

(** How many cells hold the mark [m]. *)
Definition marks (m : Mark) (b : list (option Mark)) : nat :=
  length (filter (λ cell, cell = Some m) b).

(** The server handling, in order, the events connection [sid] emitted. *)
Definition replay `{JSNum} (sid : string) (now : num)
    (evs : list ClientEvent) (s : Server) : Outcome :=
  run (map (λ ev, {| from := sid; at_time := now; event := ev |}) evs) s.

(** The server holds for the client's room the elements the client shows. *)
Definition mirrors `{JSNum} (c : Client) (s : Server) : Prop :=
  elements <$> roomStorage s !! currentRoom c = Some (paths c).

(** * Properties of the server *)

(** C9. A [new_element] event on an existing room stores the element at the
    index equal to the previous length of the room's elements, the length
    grows by exactly one, and every element stored before stays at its
    index. *)
Theorem new_element_appends `{JSNum} (sid room : string) (element : Element)
    (s : Server) (r : Room) :
  roomStorage s !! room = Some r →
  ∃ r', roomStorage (state_of (on_new_element sid room element s)) !! room
        = Some r'
    ∧ elements r' !! length (elements r) = Some element
    ∧ length (elements r') = S (length (elements r))
    ∧ (∀ i e, elements r !! i = Some e → elements r' !! i = Some e).
Proof.
  intros Hr. unfold on_new_element, state_of. rewrite Hr. cbn.
  eexists. split; [apply lookup_insert_eq |]. cbn.
  split; [by apply list_lookup_middle |].
  split; [rewrite length_app; cbn; lia |].
  intros i e Hi. by apply lookup_app_l_Some.
Qed.

Lemma new_element_appends_witness :
  ∃ r', roomStorage (state_of (on_new_element "A" "1" line3
                                 (server_with [line3] "dots"))) !! "1"
        = Some r'
    ∧ elements r' !! 1 = Some line3
    ∧ length (elements r') = 2
    ∧ (∀ i e, [line3] !! i = Some e → elements r' !! i = Some e).
Proof.
  exact (new_element_appends "A" "1" line3 (server_with [line3] "dots")
           (room_of [line3] "dots") eq_refl).
Defined.






(** C10. On an existing room, [game_move] emits exactly one
    [game_move_received(gameIndex, game)], to the members of the room other
    than the sender, whatever [elements[gameIndex]] holds; when it holds
    nothing the server state stays as it was and the event goes out all the
    same. *)
Theorem game_move_always_broadcast `{JSNum} (sid room : string)
    (gameIndex : nat) (game : Element) (s : Server) (r : Room) :
  roomStorage s !! room = Some r →
  emissions_of (on_game_move sid room gameIndex game s)
  = [ {| recipients := members s room ∖ {[sid]};
         message := game_move_received gameIndex game |} ]
  ∧ (elements r !! gameIndex = None →
     state_of (on_game_move sid room gameIndex game s) = s).
Proof.
  intros Hr. unfold on_game_move, emissions_of, state_of. rewrite Hr.
  destruct (elements r !! gameIndex); cbn; split; done.
Qed.

Lemma game_move_always_broadcast_witness :
  let game := EGame (GTicTacToe tictactoe_after_A) in
  let s := server_with [line3] "dots" in
  emissions_of (on_game_move "A" "1" 3 game s)
  = [ {| recipients := members s "1" ∖ {[ "A" ]};
         message := game_move_received 3 game |} ]
  ∧ state_of (on_game_move "A" "1" 3 game s) = s.
Proof.
  intros game s.
  destruct (game_move_always_broadcast "A" "1" 3 game s
              (room_of [line3] "dots") eq_refl) as [Hout Hsame].
  split; [exact Hout | apply Hsame; reflexivity].
Defined.

(** C2 (as stated, refuted). The index need not hold a game: a line stored
    at index 0 is replaced by the incoming game. *)
Lemma game_move_replaces_non_game_counterexample :
  let s := server_with [line3] "dots" in
  let s' := state_of (on_game_move "A" "1" 0 (EGame (GTicTacToe tictactoe_100))
                        s) in
  (elements <$> roomStorage s !! "1") = Some [line3]
  ∧ is_game line3 = false
  ∧ (elements <$> roomStorage s' !! "1")
    = Some [EGame (GTicTacToe tictactoe_100)].
Proof. repeat split; reflexivity. Qed.

(** C2 (amended). On an existing room, [game_move] replaces the element at
    [gameIndex] with the incoming game when that index holds an element, of
    whatever type, and leaves every other index, the chat and the background
    alone; when the index holds nothing the server state is unchanged and
    the inconsistency is logged.  The handler always returns. *)
Theorem game_move_replaces_or_drops `{JSNum} (sid room : string)
    (gameIndex : nat) (game : Element) (s : Server) (r : Room) :
  roomStorage s !! room = Some r →
  (is_Some (elements r !! gameIndex) →
     roomStorage (state_of (on_game_move sid room gameIndex game s))
     = <[room := {| elements := <[gameIndex := game]> (elements r);
                    chat := chat r; background := background r |}]>
         (roomStorage s)
     ∧ rooms (state_of (on_game_move sid room gameIndex game s)) = rooms s)
  ∧ (elements r !! gameIndex = None →
     state_of (on_game_move sid room gameIndex game s) = s
     ∧ ErrGameNotFound gameIndex
       ∈ logs_of (on_game_move sid room gameIndex game s)).
Proof.
  intros Hr. unfold on_game_move, state_of, logs_of. rewrite Hr.
  destruct (elements r !! gameIndex) as [e|]; cbn; split.
  - done.
  - done.
  - by intros [? ?].
  - intros _. split; [done |]. apply list_elem_of_In. cbn. tauto.
Qed.

Lemma game_move_replaces_or_drops_witness :
  let game := EGame (GTicTacToe tictactoe_100) in
  let s := server_with [line3; game] "dots" in
  (roomStorage (state_of (on_game_move "A" "1" 1 game s))
   = <[ "1" := {| elements := <[1 := game]> [line3; game];
                  chat := []; background := "dots" |} ]> (roomStorage s)
   ∧ rooms (state_of (on_game_move "A" "1" 1 game s)) = rooms s)
  ∧ (state_of (on_game_move "A" "1" 2 game s) = s
     ∧ ErrGameNotFound 2 ∈ logs_of (on_game_move "A" "1" 2 game s)).
Proof.
  intros game s. split.
  - apply (game_move_replaces_or_drops "A" "1" 1 game s
             (room_of [line3; game] "dots") eq_refl).
    eexists. reflexivity.
  - apply (game_move_replaces_or_drops "A" "1" 2 game s
             (room_of [line3; game] "dots") eq_refl).
    reflexivity.
Defined.

(** C4. Whatever a room-scoped event of connection [sid] into [room] makes
    the dispatcher emit reaches only members of [room], and never [sid]. *)
Theorem no_self_echo `{JSNum} (sid : string) (now : num) (ev : ClientEvent)
    (room : string) (s : Server) (em : Emission) :
  event_room ev = Some room →
  em ∈ emissions_of (handle sid now ev s) →
  (sid ∉ recipients em) ∧ (recipients em ⊆ members s room).
Proof.
  intros Hev.
  destruct ev; cbn in Hev; try discriminate; injection Hev as ->; cbn;
    unfold on_new_element, on_full_sync, on_chat_message, on_laser_pointer,
      on_background_change, on_game_move, emissions_of;
    destruct (roomStorage s !! room) as [r|]; cbn;
    try (destruct (elements r !! gameIndex); cbn);
    first [ by intros ?%elem_of_nil
          | intros ->%list_elem_of_singleton; cbn;
            split; [ rewrite elem_of_difference, elem_of_singleton; tauto
                   | apply subseteq_difference_l; reflexivity ] ].
Qed.

Lemma no_self_echo_witness :
  let s := server_with [] "dots" in
  let em := {| recipients := {[ "B" ]};
               message := element_received line3 |} in
  ("A" ∉ recipients em) ∧ (recipients em ⊆ members s "1").
Proof.
  intros s em.
  apply (no_self_echo "A" (zn 0) (new_element "1" line3) "1" s em eq_refl).
  vm_compute. left.
Defined.

(** ** The laser pointer leaves no trace *)

Lemma run_cons_state `{JSNum} (i : Incoming) (rest : list Incoming)
    (s : Server) :
  state_of (run (i :: rest) s)
  = state_of (run rest (state_of (handle (from i) (at_time i) (event i) s))).
Proof.
  unfold state_of. cbn.
  destruct (handle (from i) (at_time i) (event i) s) as [[s1 out1] log1].
  cbn. by destruct (run rest s1) as [[s2 out2] log2].
Qed.

Lemma run_cons_emissions `{JSNum} (i : Incoming) (rest : list Incoming)
    (s : Server) :
  emissions_of (run (i :: rest) s)
  = emissions_of (handle (from i) (at_time i) (event i) s)
    ++ emissions_of
         (run rest (state_of (handle (from i) (at_time i) (event i) s))).
Proof.
  unfold emissions_of, state_of. cbn.
  destruct (handle (from i) (at_time i) (event i) s) as [[s1 out1] log1].
  cbn. by destruct (run rest s1) as [[s2 out2] log2].
Qed.

Lemma laser_pointer_keeps_state `{JSNum} (sid : string) (now : num)
    (ev : ClientEvent) (s : Server) :
  is_laser_pointer ev = true →
  state_of (handle sid now ev s) = s
  ∧ filter (λ em, is_laser_received em = false)
      (emissions_of (handle sid now ev s)) = [].
Proof.
  destruct ev; try discriminate. intros _. cbn. unfold on_laser_pointer.
  by destruct (roomStorage s !! room).
Qed.

Lemma other_events_emit_no_laser `{JSNum} (sid : string) (now : num)
    (ev : ClientEvent) (s : Server) :
  is_laser_pointer ev = false →
  filter (λ em, is_laser_received em = false)
    (emissions_of (handle sid now ev s))
  = emissions_of (handle sid now ev s).
Proof.
  destruct ev; try discriminate; intros _; cbn;
    unfold on_join_room, on_new_element, on_full_sync, on_chat_message,
      on_background_change, on_game_move, on_disconnect, emissions_of; cbn;
    try (destruct (roomStorage s !! _) as [r|]; cbn);
    try (destruct (elements r !! gameIndex); cbn); done.
Qed.

(** C8. A [laser_pointer] event on an existing room is relayed by exactly
    one emission, to the other members of the room, and the server state
    stays as it was.  Over any sequence of events the lasers leave no
    trace: the final state, every room's elements in it, and every event
    sent other than [laser_received] (so every [canvas_data] read) are what
    they would be had no [laser_pointer] event occurred. *)
Theorem laser_pointer_not_stored `{JSNum} (evs : list Incoming) (s : Server) :
  (∀ sid room laser,
     is_Some (roomStorage s !! room) →
     on_laser_pointer sid room laser s
     = (s,
        [ {| recipients := members s room ∖ {[sid]};
             message := laser_received laser |} ],
        [LogLaser room]))
  ∧ state_of (run evs s) = state_of (run (without_lasers evs) s)
  ∧ filter (λ em, is_laser_received em = false) (emissions_of (run evs s))
    = emissions_of (run (without_lasers evs) s).
Proof.
  split.
  { intros sid room laser [r Hr]. unfold on_laser_pointer. by rewrite Hr. }
  revert s. induction evs as [|i rest IH]; intros s; [done |].
  unfold without_lasers in *.
  destruct (is_laser_pointer (event i)) eqn:Hi.
  - destruct (laser_pointer_keeps_state (from i) (at_time i) (event i) s Hi)
      as [Hs Hout].
    rewrite filter_cons_False by (rewrite Hi; done).
    rewrite run_cons_state, run_cons_emissions, filter_app, Hs, Hout.
    apply IH.
  - rewrite filter_cons_True by done.
    rewrite !run_cons_state, !run_cons_emissions, filter_app.
    rewrite (other_events_emit_no_laser _ _ _ _ Hi).
    destruct (IH (state_of (handle (from i) (at_time i) (event i) s)))
      as [IHs IHout].
    by rewrite IHs, IHout.
Qed.

Lemma laser_pointer_not_stored_witness :
  let s := server_with [line3] "dots" in
  on_laser_pointer "A" "1" laser2 s
  = (s,
     [ {| recipients := members s "1" ∖ {[ "A" ]};
          message := laser_received laser2 |} ],
     [LogLaser "1"]).
Proof.
  intros s.
  apply (laser_pointer_not_stored [incoming "A" (laser_pointer "1" laser2)] s).
  eexists. reflexivity.
Defined.

(** * Properties of the client *)

(** ** Tic-tac-toe *)

(** A connection already recorded for the turn stays so through
    [assign_players]. *)
Lemma holds_turn_assign `{JSNum} (me : string) (t : TicTacToe) :
  holds_turn me t → holds_turn me (assign_players me t).
Proof.
  unfold holds_turn, assign_players. cbn.
  intros [[Hc Hx] | [Hc Ho]]; [left | right]; (split; [done |]).
  - rewrite Hx. by destruct (truthy_id (Some me)).
  - rewrite Ho. by destruct (_ && _).
Qed.

(** The turn check of [handleGameClick] lets the holder of the turn pass. *)
Lemma turn_check_passes `{JSNum} (me : string) (t : TicTacToe) :
  holds_turn me t →
  (bool_decide (currentPlayer t = X) && negb (id_is me (playerX t)))
  || (bool_decide (currentPlayer t = O) && negb (id_is me (playerO t)))
  = false.
Proof.
  unfold id_is.
  intros [[Hc Hp] | [Hc Hp]]; rewrite Hc, Hp;
    by rewrite (bool_decide_eq_true_2 (Some me = Some me)).
Qed.

(** C7 (as stated, refuted). After [A] took the centre cell, a click of a
    second connection [B] on the same cell is rejected as a move, yet it
    changes the game: [B] is recorded as player O. *)
Lemma occupied_cell_click_counterexample :
  board tictactoe_after_A !! 4 = Some (Some X)
  ∧ playerO tictactoe_after_A = None
  ∧ num_index (cellIndex (pt 250 250) tictactoe_after_A) = Some 4
  ∧ playerO (game_after (click_tictactoe "B" "1" 0 (pt 250 250)
                           tictactoe_after_A)) = Some "B"
  ∧ game_after (click_tictactoe "B" "1" 0 (pt 250 250) tictactoe_after_A)
    ≠ tictactoe_after_A.
Proof.
  assert (Hpo : playerO (game_after (click_tictactoe "B" "1" 0 (pt 250 250)
                                       tictactoe_after_A)) = Some "B")
    by (vm_compute; reflexivity).
  repeat split; try (vm_compute; reflexivity).
  intros Heq. rewrite Heq in Hpo. vm_compute in Hpo. discriminate.
Qed.

(** C7 (amended). In a tic-tac-toe game with no winner, a click on an empty
    cell by the connection that holds the mark of [currentPlayer] (from
    before, or by the assignment of free marks the click itself makes) puts
    that mark in the cell and emits the game as a [game_move]; the turn
    passes to the other mark unless the move wins or draws, in which case
    [winner] and [winLine] are set instead.  A click on an occupied cell,
    by any connection, leaves [board], [currentPlayer], [winner] and
    [winLine] as they were and emits nothing. *)
Theorem tictactoe_click_moves `{JSNum} (me room : string) (i : nat)
    (pos : Point) (t : TicTacToe) (cell : nat) :
  in_bounds pos t = true →
  ttt_winner t = None →
  num_index (cellIndex pos t) = Some cell →
  (board t !! cell = Some None →
   holds_turn me (assign_players me t) →
     board (game_after (click_tictactoe me room i pos t))
     = <[cell := Some (currentPlayer t)]> (board t)
     ∧ match checkTicTacToeWinner
               (<[cell := Some (currentPlayer t)]> (board t)) with
       | Some (w, l) =>
           ttt_winner (game_after (click_tictactoe me room i pos t)) = Some w
           ∧ winLine (game_after (click_tictactoe me room i pos t)) = l
           ∧ currentPlayer (game_after (click_tictactoe me room i pos t))
             = currentPlayer t
       | None =>
           ttt_winner (game_after (click_tictactoe me room i pos t)) = None
           ∧ currentPlayer (game_after (click_tictactoe me room i pos t))
             = other_mark (currentPlayer t)
       end
     ∧ emitted (click_tictactoe me room i pos t)
       = [ game_move room i
             (EGame (GTicTacToe
                       (game_after (click_tictactoe me room i pos t)))) ])
  ∧ (∀ m, board t !! cell = Some (Some m) →
     board (game_after (click_tictactoe me room i pos t)) = board t
     ∧ currentPlayer (game_after (click_tictactoe me room i pos t))
       = currentPlayer t
     ∧ ttt_winner (game_after (click_tictactoe me room i pos t))
       = ttt_winner t
     ∧ winLine (game_after (click_tictactoe me room i pos t)) = winLine t
     ∧ emitted (click_tictactoe me room i pos t) = []).
Proof.
  intros Hin Hw Hidx. unfold click_tictactoe. rewrite Hin, Hw.
  rewrite (bool_decide_eq_false_2 (None ≠ None)) by (intros Hn; by apply Hn).
  cbv beta iota zeta.
  split.
  - intros Hcell Hturn.
    rewrite (turn_check_passes me _ Hturn).
    unfold null_cell. change (cellIndex pos (assign_players me t))
      with (cellIndex pos t). rewrite Hidx.
    change (board (assign_players me t)) with (board t).
    rewrite bool_decide_eq_true_2 by done. cbn.
    unfold place_mark. cbn.
    destruct (checkTicTacToeWinner _) as [[w l]|]; cbn; repeat split; done.
  - intros m Hcell.
    destruct (_ || _); cbn; [done |].
    unfold null_cell. change (cellIndex pos (assign_players me t))
      with (cellIndex pos t). rewrite Hidx.
    change (board (assign_players me t)) with (board t).
    rewrite bool_decide_eq_false_2 by (rewrite Hcell; discriminate). done.
Qed.

Lemma tictactoe_click_moves_witness :
  let first := click_tictactoe "A" "1" 0 (pt 250 250) tictactoe_100 in
  let second := click_tictactoe "B" "1" 0 (pt 250 250) tictactoe_after_A in
  (board (game_after first) = <[4 := Some X]> (replicate 9 None)
   ∧ currentPlayer (game_after first) = O
   ∧ emitted first = [game_move "1" 0 (EGame (GTicTacToe (game_after first)))])
  ∧ (board (game_after second) = board tictactoe_after_A
     ∧ currentPlayer (game_after second) = O
     ∧ emitted second = []).
Proof.
  intros first second. split.
  - destruct (tictactoe_click_moves "A" "1" 0 (pt 250 250) tictactoe_100 4)
      as [Hmove _]; try (vm_compute; reflexivity).
    destruct Hmove as (Hb & Hw & He).
    + vm_compute; reflexivity.
    + left. vm_compute. split; reflexivity.
    + split; [exact Hb |]. split; [| exact He].
      vm_compute in Hw. apply Hw.
  - destruct (tictactoe_click_moves "B" "1" 0 (pt 250 250) tictactoe_after_A 4)
      as [_ Hocc]; try (vm_compute; reflexivity).
    destruct (Hocc X) as (Hb & Hc & _ & _ & He); [vm_compute; reflexivity |].
    split; [exact Hb |]. split; [| exact He].
    etransitivity; [exact Hc | vm_compute; reflexivity].
Defined.

(** ** Ping-pong authority *)

Lemma ball_at_insert `{JSNum} (l : list Element) (i : nat) (e : Element) :
  is_Some (l !! i) →
  ball_at i (<[i := e]> l)
  = match e with EGame (GPingPong g) => Some (ball g) | _ => None end.
Proof.
  intros [e0 He0]. unfold ball_at.
  by rewrite list_lookup_insert_eq by (by eapply lookup_lt_Some).
Qed.

(** C1 (as stated, refuted). Nothing rejects ball state that comes from a
    connection other than [playerLeft]: a [game_move] of [B] carrying
    another ball is stored by the server, sent on to [A], and overwrites the
    ball on [A], the [playerLeft] connection itself. *)
Lemma ball_state_not_guarded_counterexample :
  let before := EGame (GPingPong pingpong_AB) in
  let sent := EGame (GPingPong (set_ball ball_elsewhere pingpong_AB)) in
  let s := server_with [before] "dots" in
  let o := on_game_move "B" "1" 0 sent s in
  playerLeft_at 0 [before] = Some "A"
  ∧ ball_at 0 [before] = Some (ball pingpong_AB)
  ∧ ball pingpong_AB ≠ ball_elsewhere
  ∧ (ball_at 0 <$> (elements <$> roomStorage (state_of o) !! "1"))
    = Some (Some ball_elsewhere)
  ∧ emissions_of o
    = [ {| recipients := {[ "A" ]}; message := game_move_received 0 sent |} ]
  ∧ ball_at 0 (paths (client_on_game_move_received 0 sent
                        (client_showing "A" [before])))
    = Some ball_elsewhere.
Proof.
  repeat split; try (vm_compute; reflexivity).
  intros Heq. discriminate Heq.
Qed.

(** C1 (amended). The simulation loop moves the ball only on the connection
    whose id equals the game's [playerLeft]: on every other connection a run
    of the loop leaves the ball as it was and emits nothing, while on
    [playerLeft], with the game in play, it emits the game the physics step
    produced.  Incoming state is taken over without a check of its origin:
    the server stores the game of a [game_move] from any connection wherever
    the index holds an element, and every connection, [playerLeft] too,
    replaces its local copy by the game of a [game_move_received]. *)
Theorem ball_moved_by_playerLeft_loop `{JSNum} (c : Client) (gameIndex : nat)
    (now : num) (rnd : nat → num) (game : Element) (sid room : string)
    (s : Server) (r : Room) :
  (playerLeft_at gameIndex (paths c) ≠ Some (socket_id c) →
     ball_at gameIndex (paths (interval_fires gameIndex now rnd c).1)
     = ball_at gameIndex (paths c)
     ∧ (interval_fires gameIndex now rnd c).2 = [])
  ∧ (∀ g, paths c !! gameIndex = Some (EGame (GPingPong g)) →
       gameIndex ∈ pingPongLoops c →
       pp_winner g = None → gameStarted g = true → paused g = false →
       truthy_id (playerLeft g) = true → truthy_id (playerRight g) = true →
       playerLeft g = Some (socket_id c) →
       (interval_fires gameIndex now rnd c).2
       = [ game_move (currentRoom c) gameIndex
             (EGame (GPingPong
                (physics_step ((now - lastUpdate g) / num_lit 16.67)%num rnd
                   (set_lastUpdate now g)).1.1)) ])
  ∧ (is_Some (paths c !! gameIndex) →
       paths (client_on_game_move_received gameIndex game c) !! gameIndex
       = Some game)
  ∧ (roomStorage s !! room = Some r →
     is_Some (elements r !! gameIndex) →
       (elements <$>
          roomStorage (state_of (on_game_move sid room gameIndex game s))
            !! room)
       = Some (<[gameIndex := game]> (elements r))).
Proof.
  split; [| split; [| split]].
  - intros Hne. unfold interval_fires.
    destruct (bool_decide (gameIndex ∈ pingPongLoops c)); [| done].
    unfold pingpong_tick, playerLeft_at in *.
    destruct (paths c !! gameIndex) as [[| | | |[t|g]]|] eqn:Hl; try done.
    destruct (_ || _ || _); [done |].
    destruct (_ || _); [done |].
    unfold id_is.
    rewrite bool_decide_eq_false_2 by exact Hne. cbn. split; [| done].
    rewrite ball_at_insert by (by rewrite Hl).
    unfold ball_at. by rewrite Hl.
  - intros g Hl Hloop Hw Hs Hp Hpl Hpr Hme. unfold interval_fires.
    rewrite bool_decide_eq_true_2 by done.
    unfold pingpong_tick. rewrite Hl, Hw, Hs, Hp, Hpl, Hpr.
    rewrite (bool_decide_eq_false_2 (None ≠ None))
      by (intros Hn; by apply Hn).
    cbv beta iota zeta. unfold negb, orb, id_is.
    change (playerLeft (set_lastUpdate now g)) with (playerLeft g).
    rewrite bool_decide_eq_true_2 by done.
    by destruct (physics_step _ _ _) as [[g2 n] stopped].
  - intros [local Hl]. unfold client_on_game_move_received. rewrite Hl. cbn.
    apply list_lookup_insert_eq. by eapply lookup_lt_Some.
  - intros Hr [e He]. unfold on_game_move, state_of. rewrite Hr, He. cbn.
    by rewrite lookup_insert_eq.
Qed.

Lemma ball_moved_by_playerLeft_loop_witness :
  let game := EGame (GPingPong pingpong_AB) in
  let sent := EGame (GPingPong (set_ball ball_elsewhere pingpong_AB)) in
  let now : @num QNum := 1667 # 100 in
  (ball_at 0 (paths (interval_fires 0 now rnd_075
                       (client_playing "B" [game])).1)
   = ball_at 0 (paths (client_playing "B" [game]))
   ∧ (interval_fires 0 now rnd_075 (client_playing "B" [game])).2 = [])
  ∧ (interval_fires 0 now rnd_075 (client_playing "A" [game])).2
    = [ game_move "1" 0
          (EGame (GPingPong
             (physics_step ((now - zn 0) / num_lit 16.67)%num rnd_075
                (set_lastUpdate now pingpong_AB)).1.1)) ]
  ∧ paths (client_on_game_move_received 0 sent (client_playing "A" [game]))
      !! 0 = Some sent
  ∧ (elements <$>
       roomStorage (state_of (on_game_move "B" "1" 0 sent
                                (server_with [game] "dots"))) !! "1")
    = Some (<[0 := sent]> [game]).
Proof.
  intros game sent now.
  destruct (ball_moved_by_playerLeft_loop (client_playing "B" [game]) 0 now
              rnd_075 sent "B" "1" (server_with [game] "dots")
              (room_of [game] "dots")) as (Hother & _ & _ & _).
  destruct (ball_moved_by_playerLeft_loop (client_playing "A" [game]) 0 now
              rnd_075 sent "B" "1" (server_with [game] "dots")
              (room_of [game] "dots")) as (_ & Hleft & Hrecv & Hstore).
  split; [apply Hother; vm_compute; discriminate |].
  split; [apply (Hleft pingpong_AB); vm_compute; reflexivity |].
  split; [apply Hrecv; eexists; reflexivity |].
  apply Hstore; [reflexivity | eexists; reflexivity].
Defined.

(** One step of [A]'s loop, 16.67 ms after the last: the ball of
    [pingpong_AB] goes from (300, 200) to (304, 203). *)
Example physics_step_moves_ball :
  let g := (physics_step (1 # 1) rnd_075 pingpong_AB).1.1 in
  (ball_x (ball g) == 304)%Q ∧ (ball_y (ball g) == 203)%Q
  ∧ (ball_dx (ball g) == 4)%Q ∧ (ball_dy (ball g) == 3)%Q.
Proof. vm_compute. repeat split. Qed.

(** ** Echo suppression *)

(** C3 (as stated, refuted). [syncToServer] and [throttledSync] emit
    [full_sync] with the flag down, and a [canvas_data] that follows is
    applied; and of two final syncs 300 ms apart, the timer of the first
    lowers the flag 200 ms after the second. *)
Lemma full_sync_without_flag_counterexample :
  let c := client_showing "A" [line3] in
  let first := (handlePointerUp_sync true client_dragging).1 in
  let second :=
    (handlePointerUp_sync true
       (start_image_drag 0 (elapse 300 first).1)).1 in
  ((syncToServer c).2 = [full_sync "1" [line3]]
   ∧ isLocalUpdate (syncToServer c).1 = false
   ∧ paths (client_on_canvas_data [] (syncToServer c).1) = [])
  ∧ ((elapse 100 (throttledSync c)).2 = [full_sync "1" [line3]]
     ∧ isLocalUpdate (elapse 100 (throttledSync c)).1 = false)
  ∧ (isLocalUpdate second = true
     ∧ isLocalUpdate (elapse 200 second).1 = false).
Proof. vm_compute. repeat split; reflexivity. Qed.

Lemma fire_all_other `{JSNum} (cbs : list TimerCallback) (c : Client) :
  ClearLocalUpdate ∉ cbs →
  isLocalUpdate (fire_all cbs c).1 = isLocalUpdate c
  ∧ timers (fire_all cbs c).1 = timers c
  ∧ clock (fire_all cbs c).1 = clock c.
Proof.
  revert c. induction cbs as [|cb rest IH]; intros c Hnot; [done |].
  apply not_elem_of_cons in Hnot as [Hcb Hrest]. cbn.
  destruct (fire cb c) as [c1 out1] eqn:Hfire.
  specialize (IH c1 Hrest).
  destruct (fire_all rest c1) as [c2 out2]. cbn in *.
  destruct cb; [done | |]; cbn in Hfire; injection Hfire as <- _;
    exact IH.
Qed.

Lemma fire_all_stays_down `{JSNum} (cbs : list TimerCallback) (c : Client) :
  isLocalUpdate c = false → isLocalUpdate (fire_all cbs c).1 = false.
Proof.
  revert c. induction cbs as [|cb rest IH]; intros c Hc; [done |]. cbn.
  destruct (fire cb c) as [c1 out1] eqn:Hfire.
  specialize (IH c1).
  destruct (fire_all rest c1) as [c2 out2]. cbn in *. apply IH.
  destruct cb; cbn in Hfire; injection Hfire as <- _; done.
Qed.

Lemma fire_all_lowers `{JSNum} (cbs : list TimerCallback) (c : Client) :
  ClearLocalUpdate ∈ cbs → isLocalUpdate (fire_all cbs c).1 = false.
Proof.
  revert c. induction cbs as [|cb rest IH]; intros c Hin.
  - by apply elem_of_nil in Hin.
  - apply elem_of_cons in Hin as [<- | Hin].
    + cbn. pose proof (fire_all_stays_down rest (set_isLocalUpdate false c)
                         eq_refl) as Hdown.
      by destruct (fire_all rest _) as [c2 out2].
    + cbn. destruct (fire cb c) as [c1 out1].
      specialize (IH c1 Hin). by destruct (fire_all rest c1) as [c2 out2].
Qed.

Lemma elapse_S `{JSNum} (n : nat) (c : Client) :
  (elapse (S n) c).1 = (elapse n (tick_ms c).1).1.
Proof.
  cbn. destruct (tick_ms c) as [c1 out1]. cbn.
  by destruct (elapse n c1) as [c2 out2].
Qed.

(** A millisecond that ends before the timer is due leaves the flag up. *)
Lemma tick_ms_before `{JSNum} (due : nat) (c : Client) :
  flag_held_until due c → S (clock c) < due →
  flag_held_until due (tick_ms c).1 ∧ clock (tick_ms c).1 = S (clock c).
Proof.
  intros (Hflag & Hclock & Hin & Honly) Hlt. unfold tick_ms.
  set (c0 := set_clock _ _).
  destruct (fire_all_other
              ((filter (λ tm, due_at (S (clock c)) tm = true) (timers c)).*2)
              c0) as (Hf & Ht & Hc).
  { intros (tm & Hcb & Htm)%list_elem_of_fmap.
    apply list_elem_of_filter in Htm as [Hdue Htm].
    destruct tm as [t cb]. cbn in Hcb. subst cb.
    apply bool_decide_eq_true_1 in Hdue. cbn in Hdue.
    apply Honly in Htm. lia. }
  unfold flag_held_until. rewrite Hf, Ht, Hc. cbn.
  repeat split; [done | done | |].
  - apply list_elem_of_filter. split; [| done].
    apply bool_decide_eq_false_2. cbn. lia.
  - intros t Ht'. apply list_elem_of_filter in Ht' as [_ Ht']. by apply Honly.
Qed.

(** The millisecond at which the timer is due lowers the flag. *)
Lemma tick_ms_due `{JSNum} (due : nat) (c : Client) :
  flag_held_until due c → S (clock c) = due →
  isLocalUpdate (tick_ms c).1 = false.
Proof.
  intros (Hflag & Hclock & Hin & Honly) Heq. unfold tick_ms.
  apply fire_all_lowers.
  apply (list_elem_of_fmap_2' snd _ (due, ClearLocalUpdate)); [| done].
  apply list_elem_of_filter. split; [| done].
  apply bool_decide_eq_true_2. cbn. lia.
Qed.

Lemma elapse_before `{JSNum} (due d : nat) (c : Client) :
  flag_held_until due c → clock c + d < due →
  flag_held_until due (elapse d c).1.
Proof.
  revert c. induction d as [|d IH]; intros c Hheld Hlt; [done |].
  rewrite elapse_S.
  destruct (tick_ms_before due c Hheld) as [Hheld1 Hclock1]; [lia |].
  apply IH; [done | lia].
Qed.

Lemma elapse_until_due `{JSNum} (due d : nat) (c : Client) :
  flag_held_until due c → clock c + S d = due →
  isLocalUpdate (elapse (S d) c).1 = false.
Proof.
  revert c. induction d as [|d IH]; intros c Hheld Heq; rewrite elapse_S.
  - cbn. apply (tick_ms_due due); [done | lia].
  - destruct (tick_ms_before due c Hheld) as [Hheld1 Hclock1]; [lia |].
    apply IH; [done | lia].
Qed.

(** C3 (amended). The final sync after an image drag or resize, in
    [handlePointerUp], raises the flag, emits [full_sync] with the current
    elements and sets a timer that lowers the flag 500 ms later: with no
    earlier such timer pending, the flag is up for the 500 ms that follow
    and down from then on.  A [canvas_data] that arrives while the flag is
    up is discarded and changes nothing on the client.  The other two
    places that emit [full_sync], [syncToServer] and [throttledSync] with
    its timer, leave the flag as it is. *)
Theorem final_sync_raises_flag `{JSNum} (c : Client) (data : list Element) :
  (isDraggingImage c || isResizingImage c = true →
   selectedImage c ≠ None →
   (∀ t, (t, ClearLocalUpdate) ∉ timers c) →
     (∃ rest, (handlePointerUp_sync true c).2
              = full_sync (currentRoom c) (paths c) :: rest)
     ∧ timers (handlePointerUp_sync true c).1
       = timers c ++ [(clock c + 500, ClearLocalUpdate)]
     ∧ (∀ d, d < 500 →
          isLocalUpdate (elapse d (handlePointerUp_sync true c).1).1 = true)
     ∧ isLocalUpdate (elapse 500 (handlePointerUp_sync true c).1).1 = false)
  ∧ (isLocalUpdate c = true → client_on_canvas_data data c = c)
  ∧ isLocalUpdate (syncToServer c).1 = isLocalUpdate c
  ∧ isLocalUpdate (throttledSync c) = isLocalUpdate c
  ∧ isLocalUpdate (fire FireThrottledSync c).1 = isLocalUpdate c.
Proof.
  split; [| split; [| split; [| split]]].
  - intros Hdrag Hsel Hfree.
    set (c' := reset_pointer_state
                 (setTimeout ClearLocalUpdate 500 (set_isLocalUpdate true c))).
    assert (Hstep : ∃ rest, handlePointerUp_sync true c
                            = (c', full_sync (currentRoom c) (paths c) :: rest)).
    { unfold handlePointerUp_sync.
      rewrite Hdrag, bool_decide_eq_true_2 by done. cbn. by eexists. }
    destruct Hstep as [rest ->]. cbn [fst snd].
    assert (Hheld : flag_held_until (clock c + 500) c').
    { unfold flag_held_until. cbn. repeat split; [lia | |].
      - apply elem_of_app. right. by apply list_elem_of_singleton.
      - intros t [Hin | Hin%list_elem_of_singleton]%elem_of_app.
        + by apply Hfree in Hin.
        + by injection Hin. }
    split; [by eexists |]. split; [done |]. split.
    + intros d Hd. apply (elapse_before (clock c + 500)); [exact Hheld |].
      cbn. lia.
    + apply (elapse_until_due (clock c + 500) 499); [exact Hheld |].
      cbn. lia.
  - intros Hflag. unfold client_on_canvas_data. by rewrite Hflag.
  - done.
  - unfold throttledSync. by destruct (syncTimeout c).
  - done.
Qed.

Lemma final_sync_raises_flag_witness :
  ((∃ rest, (handlePointerUp_sync true client_dragging).2
            = full_sync "1" [image1] :: rest)
   ∧ timers (handlePointerUp_sync true client_dragging).1
     = [(500, ClearLocalUpdate)]
   ∧ (∀ d, d < 500 →
        isLocalUpdate (elapse d (handlePointerUp_sync true client_dragging).1).1
        = true)
   ∧ isLocalUpdate (elapse 500 (handlePointerUp_sync true client_dragging).1).1
     = false)
  ∧ client_on_canvas_data [line3]
      (handlePointerUp_sync true client_dragging).1
    = (handlePointerUp_sync true client_dragging).1.
Proof.
  split.
  - apply (final_sync_raises_flag client_dragging [line3]).
    + reflexivity.
    + discriminate.
    + intros t Hin. by apply elem_of_nil in Hin.
  - apply (final_sync_raises_flag
             (handlePointerUp_sync true client_dragging).1 [line3]).
    reflexivity.
Defined.

(** * Further properties of the server *)

(** ** Rooms *)

(** One event leaves the rooms it does not name as they are. *)
Lemma handle_frames_rooms `{JSNum} (sid : string) (now : num)
    (ev : ClientEvent) (k : string) (s : Server) :
  addressed_room ev ≠ Some k →
  roomStorage (state_of (handle sid now ev s)) !! k = roomStorage s !! k.
Proof.
  intros Hk. unfold state_of.
  destruct ev; cbn in *;
    unfold on_join_room, on_new_element, on_full_sync, on_chat_message,
      on_laser_pointer, on_background_change, on_game_move, on_disconnect;
    cbn; try done;
    try (destruct (roomStorage s !! _) as [r|] eqn:Hr; cbn;
         try (destruct (elements r !! gameIndex); cbn);
         try done; apply lookup_insert_ne; congruence).
Qed.

(** X1. An event changes no room but the one it names: every other entry
    of [roomStorage] is after the event what it was before. *)
Theorem other_rooms_untouched `{JSNum} (sid : string) (now : num)
    (ev : ClientEvent) (k : string) (s : Server) :
  addressed_room ev ≠ Some k →
  roomStorage (state_of (handle sid now ev s)) !! k = roomStorage s !! k.
Proof.
  intros Hk. unfold state_of.
  destruct ev as [roomId | room el | room data | room txt | room laser
                 | room bg | room gameIndex game |]; cbn in Hk; cbn.
  - unfold on_join_room. cbn.
    destruct (roomStorage s !! roomId); cbn; [done |].
    apply lookup_insert_ne. congruence.
  - unfold on_new_element. destruct (roomStorage s !! room); cbn; [| done].
    apply lookup_insert_ne. congruence.
  - unfold on_full_sync. destruct (roomStorage s !! room); cbn; [| done].
    apply lookup_insert_ne. congruence.
  - unfold on_chat_message. destruct (roomStorage s !! room); cbn; [| done].
    apply lookup_insert_ne. congruence.
  - unfold on_laser_pointer. by destruct (roomStorage s !! room).
  - unfold on_background_change.
    destruct (roomStorage s !! room); cbn; [| done].
    apply lookup_insert_ne. congruence.
  - unfold on_game_move. destruct (roomStorage s !! room) as [r|]; [| done].
    destruct (elements r !! gameIndex); cbn; [| done].
    apply lookup_insert_ne. congruence.
  - done.
Qed.

Lemma other_rooms_untouched_witness :
  roomStorage (state_of (handle "A" (zn 0) (full_sync "2" [])
                           (server_with [line3] "dots"))) !! "1"
  = roomStorage (server_with [line3] "dots") !! "1".
Proof.
  apply (other_rooms_untouched "A" (zn 0) (full_sync "2" []) "1"
           (server_with [line3] "dots")).
  discriminate.
Defined.

(** What one event does to the set of rooms: it adds the room of a
    [join_room] and nothing else, and removes none. *)
Lemma handle_rooms `{JSNum} (sid : string) (now : num) (ev : ClientEvent)
    (k : string) (s : Server) :
  is_Some (roomStorage (state_of (handle sid now ev s)) !! k)
  ↔ is_Some (roomStorage s !! k) ∨ ev = join_room k.
Proof.
  destruct (decide (addressed_room ev = Some k)) as [Hk | Hk].
  - unfold state_of.
    destruct ev; cbn in Hk; try discriminate; injection Hk as ->; cbn;
      unfold on_join_room, on_new_element, on_full_sync, on_chat_message,
        on_laser_pointer, on_background_change, on_game_move; cbn;
      destruct (roomStorage s !! k) as [r|] eqn:Hr; cbn;
      try (destruct (elements r !! gameIndex); cbn);
      rewrite ?lookup_insert_eq, ?Hr;
      split; intros Hs; try (by left); try (by right);
      try (by eexists);
      try (destruct Hs as [[? ?] | ?]; done).
  - rewrite handle_frames_rooms by done.
    split; [by left |]. intros [Hs | ->]; [done |]. by destruct Hk.
Qed.

(** X2. No room is ever removed: a room in [roomStorage] is still there
    after any sequence of events, disconnects included. *)
Theorem rooms_persist `{JSNum} (evs : list Incoming) (k : string)
    (s : Server) :
  is_Some (roomStorage s !! k) →
  is_Some (roomStorage (state_of (run evs s)) !! k).
Proof.
  revert s. induction evs as [|i rest IH]; intros s Hs; [done |].
  rewrite run_cons_state. apply IH. apply handle_rooms. by left.
Qed.

Lemma rooms_persist_witness :
  is_Some (roomStorage
             (state_of (run [ incoming "A" disconnect;
                              incoming "B" (full_sync "1" []);
                              incoming "B" disconnect ]
                            (server_with [line3] "dots"))) !! "1").
Proof.
  apply rooms_persist. eexists. reflexivity.
Defined.

(** X3. Rooms are created by [join_room] alone: a room that is in
    [roomStorage] after a sequence of events and was not before was named
    by a [join_room] event of the sequence. *)
Theorem rooms_created_by_join `{JSNum} (evs : list Incoming) (k : string)
    (s : Server) :
  roomStorage s !! k = None →
  is_Some (roomStorage (state_of (run evs s)) !! k) →
  ∃ i, i ∈ evs ∧ event i = join_room k.
Proof.
  revert s. induction evs as [|i rest IH]; intros s Hnone Hsome.
  - cbn in Hsome. rewrite Hnone in Hsome. by destruct Hsome.
  - rewrite run_cons_state in Hsome.
    destruct (roomStorage (state_of (handle (from i) (at_time i) (event i) s))
                !! k) as [r|] eqn:Hr.
    + assert (Hi : is_Some (roomStorage
                 (state_of (handle (from i) (at_time i) (event i) s)) !! k))
        by (by rewrite Hr).
      apply handle_rooms in Hi as [Hi | Hi].
      * rewrite Hnone in Hi. by destruct Hi.
      * exists i. split; [apply elem_of_cons; by left | done].
    + destruct (IH _ Hr Hsome) as (j & Hj & Hev).
      exists j. split; [apply elem_of_cons; by right | done].
Qed.

Lemma rooms_created_by_join_witness :
  ∃ i, i ∈ [ incoming "A" (new_element "2" line3);
             incoming "A" (join_room "2") ]
       ∧ event i = join_room "2".
Proof.
  apply (rooms_created_by_join _ "2" (server_with [] "dots")).
  - reflexivity.
  - eexists. reflexivity.
Defined.

(** ** Chat *)

(** What one event does to the chat of an existing room: nothing, or, for
    a [chat_message] into that room, one entry more at the end, stamped
    with the sender's id and the time of handling. *)
Lemma handle_chat `{JSNum} (sid : string) (now : num) (ev : ClientEvent)
    (k : string) (s : Server) (r : Room) :
  roomStorage s !! k = Some r →
  ∃ r', roomStorage (state_of (handle sid now ev s)) !! k = Some r'
    ∧ (chat r' = chat r
       ∨ ∃ txt, ev = chat_message k txt
           ∧ chat r' = chat r ++ [ {| text := txt; senderId := sid;
                                      timestamp := now |} ]).
Proof.
  intros Hr.
  destruct (decide (addressed_room ev = Some k)) as [Hk | Hk].
  - unfold state_of.
    destruct ev; cbn in Hk; try discriminate; injection Hk as ->; cbn;
      unfold on_join_room, on_new_element, on_full_sync, on_chat_message,
        on_laser_pointer, on_background_change, on_game_move; cbn;
      rewrite Hr; cbn;
      try (destruct (elements r !! gameIndex); cbn);
      rewrite ?lookup_insert_eq;
      eexists; (split; [done |]); cbn; try (by left).
    right. by eexists.
  - exists r. rewrite handle_frames_rooms by done. split; [done | by left].
Qed.

(** X4. The chat of a room is append-only and its entries name their true
    sender: after any sequence of events the chat is the former chat
    followed by new entries, and each new entry was sent as a
    [chat_message] into that room by the connection its [senderId] names,
    with the text and the time it records. *)
Theorem chat_append_only `{JSNum} (evs : list Incoming) (k : string)
    (s : Server) (r : Room) :
  roomStorage s !! k = Some r →
  ∃ r' more,
    roomStorage (state_of (run evs s)) !! k = Some r'
    ∧ chat r' = chat r ++ more
    ∧ ∀ e, e ∈ more →
        ∃ i, i ∈ evs ∧ event i = chat_message k (text e)
             ∧ from i = senderId e ∧ at_time i = timestamp e.
Proof.
  revert s r. induction evs as [|i rest IH]; intros s r Hr.
  - exists r, []. cbn. rewrite app_nil_r.
    split; [done |]. split; [done |]. intros e He. by apply elem_of_nil in He.
  - destruct (handle_chat (from i) (at_time i) (event i) k s r Hr)
      as (r1 & Hr1 & Hchat).
    destruct (IH _ _ Hr1) as (r' & more & Hr' & Hmore & Hfrom).
    rewrite run_cons_state.
    destruct Hchat as [Hsame | (txt & Hev & Hadd)].
    + exists r', more. rewrite <- Hsame. split; [done |]. split; [done |].
      intros e He. destruct (Hfrom e He) as (j & Hj & Hrest).
      exists j. split; [apply elem_of_cons; by right | done].
    + exists r', ({| text := txt; senderId := from i;
                     timestamp := at_time i |} :: more).
      split; [done |]. split.
      { rewrite Hmore, Hadd. by rewrite <- app_assoc. }
      intros e [-> | He]%elem_of_cons.
      * exists i. split; [apply elem_of_cons; by left | done].
      * destruct (Hfrom e He) as (j & Hj & Hrest).
        exists j. split; [apply elem_of_cons; by right | done].
Qed.

Lemma chat_append_only_witness :
  ∃ r' more,
    roomStorage (state_of (run [ incoming "A" (chat_message "1" "hello");
                                 incoming "B" (full_sync "1" []) ]
                               (server_with [line3] "dots"))) !! "1"
    = Some r'
    ∧ chat r' = [] ++ more
    ∧ ∀ e, e ∈ more →
        ∃ i, i ∈ [ incoming "A" (chat_message "1" "hello");
                   incoming "B" (full_sync "1" []) ]
             ∧ event i = chat_message "1" (text e)
             ∧ from i = senderId e ∧ at_time i = timestamp e.
Proof.
  apply (chat_append_only _ "1" (server_with [line3] "dots")
           (room_of [line3] "dots")).
  reflexivity.
Defined.

(** ** Reading back what was stored *)

(** X5. What is appended can be read back: after a [new_element] into an
    existing room, a join of that room by any connection is answered with
    the former elements followed by the new one, sent to the joiner. *)
Theorem new_element_then_join `{JSNum} (sender joiner room : string)
    (element : Element) (s : Server) (r : Room) :
  roomStorage s !! room = Some r →
  {| recipients := {[joiner]};
     message := canvas_data (elements r ++ [element]) |}
  ∈ emissions_of
      (on_join_room joiner room
         (state_of (on_new_element sender room element s))).
Proof.
  intros Hr. unfold on_new_element, state_of. rewrite Hr. cbn.
  unfold on_join_room, emissions_of. cbn. rewrite lookup_insert_eq. cbn.
  apply elem_of_cons. by left.
Qed.

Lemma new_element_then_join_witness :
  {| recipients := {[ "B" ]}; message := canvas_data ([] ++ [line3]) |}
  ∈ emissions_of
      (on_join_room "B" "1"
         (state_of (on_new_element "A" "1" line3 (server_with [] "dots")))).
Proof.
  apply (new_element_then_join "A" "B" "1" line3 (server_with [] "dots")
           (room_of [] "dots")).
  reflexivity.
Defined.

(** X6. A [full_sync] overwrites and is idempotent: on an existing room it
    makes the room's elements the data sent, whatever they were, leaves
    chat and background alone, and handling the same [full_sync] a second
    time changes nothing more. *)
Theorem full_sync_overwrites `{JSNum} (sid sid' room : string)
    (data : list Element) (s : Server) (r : Room) :
  roomStorage s !! room = Some r →
  roomStorage (state_of (on_full_sync sid room data s)) !! room
  = Some {| elements := data; chat := chat r; background := background r |}
  ∧ state_of (on_full_sync sid' room data
                (state_of (on_full_sync sid room data s)))
    = state_of (on_full_sync sid room data s).
Proof.
  intros Hr. unfold on_full_sync, state_of. rewrite Hr. cbn.
  rewrite lookup_insert_eq. cbn. split; [done |].
  unfold set_storage. cbn. by rewrite insert_insert_eq.
Qed.

Lemma full_sync_overwrites_witness :
  roomStorage (state_of (on_full_sync "A" "1" [] (server_with [line3] "grid")))
    !! "1"
  = Some {| elements := []; chat := []; background := "grid" |}
  ∧ state_of (on_full_sync "B" "1" []
                (state_of (on_full_sync "A" "1" []
                             (server_with [line3] "grid"))))
    = state_of (on_full_sync "A" "1" [] (server_with [line3] "grid")).
Proof.
  apply (full_sync_overwrites "A" "B" "1" [] (server_with [line3] "grid")
           (room_of [line3] "grid")).
  reflexivity.
Defined.

(** X7. A [game_move] never grows or shrinks a room: on an existing room
    the number of elements is the same afterwards, whatever the index, and
    every element at another index, the chat and the background are
    unchanged. *)
Theorem game_move_keeps_length `{JSNum} (sid room : string) (gameIndex : nat)
    (game : Element) (s : Server) (r : Room) :
  roomStorage s !! room = Some r →
  ∃ r', roomStorage (state_of (on_game_move sid room gameIndex game s))
          !! room = Some r'
    ∧ length (elements r') = length (elements r)
    ∧ (∀ j, j ≠ gameIndex → elements r' !! j = elements r !! j)
    ∧ chat r' = chat r ∧ background r' = background r.
Proof.
  intros Hr. unfold on_game_move, state_of. rewrite Hr.
  destruct (elements r !! gameIndex) as [e|]; cbn.
  - rewrite lookup_insert_eq. eexists. split; [done |]. cbn.
    split; [apply length_insert |]. split; [| done].
    intros j Hj. by apply list_lookup_insert_ne.
  - exists r. by rewrite Hr.
Qed.

Lemma game_move_keeps_length_witness :
  ∃ r', roomStorage (state_of (on_game_move "A" "1" 7
                                 (EGame (GTicTacToe tictactoe_100))
                                 (server_with [line3] "dots"))) !! "1"
        = Some r'
    ∧ length (elements r') = 1
    ∧ (∀ j, j ≠ 7 → elements r' !! j = [line3] !! j)
    ∧ chat r' = [] ∧ background r' = "dots".
Proof.
  apply (game_move_keeps_length "A" "1" 7 (EGame (GTicTacToe tictactoe_100))
           (server_with [line3] "dots") (room_of [line3] "dots")).
  reflexivity.
Defined.

(** ** Who is reached *)

(** X8. A room-scoped event into an existing room is answered by exactly
    one emission, and that emission reaches precisely the members of the
    room other than the sender: none of them is left out. *)
Theorem broadcast_reaches_all_others `{JSNum} (sid : string) (now : num)
    (ev : ClientEvent) (room : string) (s : Server) :
  event_room ev = Some room →
  is_Some (roomStorage s !! room) →
  ∃ em, emissions_of (handle sid now ev s) = [em]
    ∧ ∀ x, x ∈ recipients em ↔ x ∈ members s room ∧ x ≠ sid.
Proof.
  intros Hev [r Hr]. unfold emissions_of.
  destruct ev; cbn in Hev; try discriminate; injection Hev as ->; cbn;
    unfold on_new_element, on_full_sync, on_chat_message, on_laser_pointer,
      on_background_change, on_game_move; rewrite Hr;
    try (destruct (elements r !! gameIndex)); cbn;
    eexists; (split; [done |]); cbn; intros x;
    rewrite elem_of_difference, elem_of_singleton; done.
Qed.

Lemma broadcast_reaches_all_others_witness :
  ∃ em, emissions_of (handle "A" (zn 0) (chat_message "1" "hello")
                        (server_with [] "dots")) = [em]
    ∧ ∀ x, x ∈ recipients em
           ↔ x ∈ members (server_with [] "dots") "1" ∧ x ≠ "A".
Proof.
  apply (broadcast_reaches_all_others "A" (zn 0) (chat_message "1" "hello")
           "1" (server_with [] "dots")).
  - reflexivity.
  - eexists. reflexivity.
Defined.

(** Whatever a room-scoped event makes the server emit stays within the
    members of the room. *)
Lemma emission_within_room `{JSNum} (sid : string) (now : num)
    (ev : ClientEvent) (room : string) (s : Server) (em : Emission) :
  event_room ev = Some room →
  em ∈ emissions_of (handle sid now ev s) →
  recipients em ⊆ members s room.
Proof.
  intros Hev.
  destruct ev; cbn in Hev; try discriminate; injection Hev as ->; cbn;
    unfold on_new_element, on_full_sync, on_chat_message, on_laser_pointer,
      on_background_change, on_game_move, emissions_of;
    destruct (roomStorage s !! room) as [r|]; cbn;
    try (destruct (elements r !! gameIndex); cbn);
    first [ by intros ?%elem_of_nil
          | intros ->%list_elem_of_singleton; cbn;
            apply subseteq_difference_l; reflexivity ].
Qed.

Lemma members_leave_all `{JSNum} (sid x room : string) (s : Server) :
  x ∈ members (socket_leave_all sid s) room ↔ x ∈ members s room ∧ x ≠ sid.
Proof.
  unfold members, socket_leave_all. cbn.
  destruct (filter _ _ !! room) as [m|] eqn:Hm; cbn.
  - apply map_lookup_filter_Some in Hm as [Hm _].
    rewrite lookup_fmap in Hm.
    destruct (rooms s !! room) as [m0|]; [| done]. cbn in Hm.
    injection Hm as <-. cbn.
    by rewrite elem_of_difference, elem_of_singleton.
  - apply map_lookup_filter_None in Hm as [Hm | Hm].
    + rewrite lookup_fmap in Hm. destruct (rooms s !! room); [done |]. cbn.
      split; [by intros ?%not_elem_of_empty
             | by intros [?%not_elem_of_empty _]].
    + split; [set_solver |].
      intros [Hx Hne]. destruct (rooms s !! room) as [m0|] eqn:Hm0; cbn in Hx;
        [| set_solver].
      exfalso. apply (Hm (m0 ∖ {[sid]})).
      * rewrite lookup_fmap, Hm0. done.
      * cbn. set_solver.
Qed.

(** A disconnect takes the connection out of every room and touches
    nothing else: the stored rooms stay as they are, the other connections
    stay members of their rooms, and nothing that is broadcast afterwards
    reaches the connection that left. *)
Theorem disconnect_leaves_rooms `{JSNum} (sid : string) (s : Server) :
  roomStorage (state_of (on_disconnect sid s)) = roomStorage s
  ∧ (∀ room x, x ∈ members (state_of (on_disconnect sid s)) room
               ↔ x ∈ members s room ∧ x ≠ sid)
  ∧ (∀ other now ev em,
       is_Some (event_room ev) →
       em ∈ emissions_of (handle other now ev
                            (state_of (on_disconnect sid s))) →
       sid ∉ recipients em).
Proof.
  split; [done |]. split.
  - intros room x. apply members_leave_all.
  - intros other now ev em [room Hroom] Hem Hin.
    apply (emission_within_room other now ev room _ em Hroom Hem) in Hin.
    unfold state_of in Hin. cbn in Hin.
    apply members_leave_all in Hin. by destruct Hin.
Qed.

Lemma disconnect_leaves_rooms_witness :
  let s := state_of (on_disconnect "B" (server_with [line3] "dots")) in
  ∀ em, em ∈ emissions_of (handle "A" (zn 0) (new_element "1" line3) s) →
        "B" ∉ recipients em.
Proof.
  intros s em.
  apply (disconnect_leaves_rooms "B" (server_with [line3] "dots")).
  eexists. reflexivity.
Defined.

(** X9. Joining is idempotent: a second [join_room] of the same room by
    the same connection leaves the server, stored rooms and membership
    alike, as the first left it, and is answered like the first. *)
Theorem join_room_idempotent `{JSNum} (sid roomId : string) (s : Server) :
  state_of (on_join_room sid roomId (state_of (on_join_room sid roomId s)))
  = state_of (on_join_room sid roomId s)
  ∧ emissions_of
      (on_join_room sid roomId (state_of (on_join_room sid roomId s)))
    = emissions_of (on_join_room sid roomId s).
Proof.
  assert (Hset : ∀ m : gset string, {[sid]} ∪ ({[sid]} ∪ m) = {[sid]} ∪ m)
    by (intros m; by rewrite (assoc_L (∪)), union_idemp_L).
  unfold on_join_room, state_of, emissions_of, socket_join, set_storage,
    members. cbn.
  destruct (roomStorage s !! roomId) as [r|] eqn:Hr; cbn.
  - rewrite Hr. cbn. rewrite lookup_insert_eq. cbn.
    by rewrite insert_insert_eq, Hset.
  - rewrite !lookup_insert_eq. cbn.
    by rewrite insert_insert_eq, Hset.
Qed.



(** * Further properties of the client *)

(** ** The verdict of [checkTicTacToeWinner] *)

Lemma line_winner_spec (b : list (option Mark))
    (line : nat * nat * nat) (m : Mark) :
  line_winner b line = Some m ↔ line_of b m line.
Proof.
  destruct line as [[a1 a2] a3]. unfold line_winner, line_of. cbn.
  destruct (b !! a1) as [[m1|]|] eqn:H1.
  - destruct (bool_decide (b !! a2 = Some (Some m1))) eqn:H2;
      destruct (bool_decide (b !! a3 = Some (Some m1))) eqn:H3; cbn;
      try apply bool_decide_eq_true_1 in H2;
      try apply bool_decide_eq_true_1 in H3;
      try apply bool_decide_eq_false_1 in H2;
      try apply bool_decide_eq_false_1 in H3;
      split; try (intros [=->]; done); try discriminate;
      intros ([=->] & ? & ?); done.
  - split; [discriminate | by intros [? _]].
  - split; [discriminate | by intros [? _]].
Qed.

Lemma first_winning_line_Some (b : list (option Mark))
    (ls : list (nat * nat * nat)) (m : Mark) (line : nat * nat * nat) :
  first_winning_line b ls = Some (m, line) → line ∈ ls ∧ line_of b m line.
Proof.
  induction ls as [|l rest IH]; [discriminate |]. cbn.
  destruct (line_winner b l) as [m'|] eqn:Hl.
  - intros [= -> ->]. split; [apply elem_of_cons; by left |].
    by apply line_winner_spec.
  - intros Hrest. destruct (IH Hrest) as [Hin Hline].
    split; [apply elem_of_cons; by right | done].
Qed.

Lemma first_winning_line_None (b : list (option Mark))
    (ls : list (nat * nat * nat)) :
  first_winning_line b ls = None
  ↔ ∀ line m, line ∈ ls → ¬ line_of b m line.
Proof.
  induction ls as [|l rest IH]; cbn.
  - split; [| done]. intros _ line m Hin. by apply elem_of_nil in Hin.
  - destruct (line_winner b l) as [m'|] eqn:Hl.
    + split; [discriminate |]. intros Hno. exfalso.
      apply (Hno l m'); [apply elem_of_cons; by left |].
      by apply line_winner_spec.
    + rewrite IH. split.
      * intros Hno line m [-> | Hin]%elem_of_cons Hline; [| by eapply Hno].
        apply line_winner_spec in Hline. congruence.
      * intros Hno line m Hin. apply Hno. apply elem_of_cons. by right.
Qed.

Lemma forallb_board_full (b : list (option Mark)) :
  forallb (λ cell, bool_decide (cell ≠ None)) b = true ↔ board_full b.
Proof.
  unfold board_full. induction b as [|c rest IH]; cbn.
  - split; [| done]. intros _ cell Hin. by apply elem_of_nil in Hin.
  - rewrite andb_true_iff, IH, bool_decide_eq_true. split.
    + intros [Hc Hrest] cell [-> | Hin]%elem_of_cons; [done | by apply Hrest].
    + intros Hall. split; [apply Hall; apply elem_of_cons; by left |].
      intros cell Hin. apply Hall. apply elem_of_cons. by right.
Qed.

(** X11. A reported win is on the board: when [checkTicTacToeWinner]
    names a mark as winner, the line it returns is one of the eight rows,
    columns and diagonals, and its three cells hold that mark. *)
Theorem winner_has_line (b : list (option Mark)) (m : Mark)
    (l : option (list nat)) :
  checkTicTacToeWinner b = Some (Won m, l) →
  ∃ a1 a2 a3, l = Some [a1; a2; a3] ∧ (a1, a2, a3) ∈ lines
              ∧ b !! a1 = Some (Some m) ∧ b !! a2 = Some (Some m)
              ∧ b !! a3 = Some (Some m).
Proof.
  unfold checkTicTacToeWinner.
  destruct (first_winning_line b lines) as [[m' [[a1 a2] a3]]|] eqn:Hf.
  - intros [= -> <-]. exists a1, a2, a3.
    apply first_winning_line_Some in Hf as [Hin (H1 & H2 & H3)]. done.
  - destruct (forallb _ b); discriminate.
Qed.

Lemma winner_has_line_witness :
  ∃ a1 a2 a3, Some [0; 1; 2] = Some [a1; a2; a3] ∧ (a1, a2, a3) ∈ lines
    ∧ [Some X; Some X; Some X; Some O; Some O; None; None; None; None] !! a1
      = Some (Some X)
    ∧ [Some X; Some X; Some X; Some O; Some O; None; None; None; None] !! a2
      = Some (Some X)
    ∧ [Some X; Some X; Some X; Some O; Some O; None; None; None; None] !! a3
      = Some (Some X).
Proof.
  apply (winner_has_line
           [Some X; Some X; Some X; Some O; Some O; None; None; None; None]
           X (Some [0; 1; 2])).
  reflexivity.
Defined.

(** X12. The verdict is complete: a board with a completed line always
    gets a winner, never a draw; a draw is reported exactly for a full
    board without a completed line; and no verdict exactly for a board
    without a completed line that still has an empty cell. *)
Theorem verdict_complete (b : list (option Mark)) :
  (∀ line m, line ∈ lines → line_of b m line →
     ∃ m' l, checkTicTacToeWinner b = Some (Won m', Some l))
  ∧ (checkTicTacToeWinner b = Some (Draw, None)
     ↔ (∀ line m, line ∈ lines → ¬ line_of b m line) ∧ board_full b)
  ∧ (checkTicTacToeWinner b = None
     ↔ (∀ line m, line ∈ lines → ¬ line_of b m line) ∧ ¬ board_full b).
Proof.
  unfold checkTicTacToeWinner.
  destruct (first_winning_line b lines) as [[m' [[a1 a2] a3]]|] eqn:Hf.
  - apply first_winning_line_Some in Hf as [Hin Hline].
    split; [by eexists _, _ |].
    split; (split; [discriminate |]); intros [Hno _];
      by destruct (Hno _ m' Hin Hline).
  - pose proof (proj1 (first_winning_line_None b lines) Hf) as Hno.
    split; [intros line m Hin Hline; by destruct (Hno _ m Hin Hline) |].
    destruct (forallb _ b) eqn:Hfull.
    + apply forallb_board_full in Hfull. split.
      * split; [by intros _ | done].
      * split; [discriminate | by intros [_ Hnot]].
    + assert (Hnot : ¬ board_full b)
        by (rewrite <- forallb_board_full; congruence).
      split.
      * split; [discriminate | by intros [_ Hfull']].
      * split; [by intros _ | done].
Qed.

Lemma verdict_complete_witness :
  ∃ m' l,
    checkTicTacToeWinner
      [Some O; Some X; Some X; Some X; Some O; Some X; Some X; Some O; Some O]
    = Some (Won m', Some l).
Proof.
  apply (proj1 (verdict_complete
                  [Some O; Some X; Some X; Some X; Some O; Some X; Some X;
                   Some O; Some O]) (0, 4, 8) O).
  - vm_compute. do 6 right. left.
  - repeat split.
Defined.

(** ** Tic-tac-toe over many clicks *)

Lemma turn_check_holds `{JSNum} (me : string) (t : TicTacToe) :
  (bool_decide (currentPlayer t = X) && negb (id_is me (playerX t)))
  || (bool_decide (currentPlayer t = O) && negb (id_is me (playerO t)))
  = false →
  holds_turn me t.
Proof.
  unfold holds_turn, id_is. intros Hcheck.
  destruct (currentPlayer t); cbn in Hcheck; [left | right];
    (split; [done |]).
  - rewrite orb_false_r in Hcheck. apply negb_false_iff in Hcheck.
    by apply bool_decide_eq_true_1 in Hcheck.
  - apply negb_false_iff in Hcheck.
    by apply bool_decide_eq_true_1 in Hcheck.
Qed.

(** The three things a click can do to a game: nothing; record players
    only; or place the mark of the player whose turn it is on an empty
    cell. *)
Lemma click_cases `{JSNum} (me room : string) (i : nat) (pos : Point)
    (t : TicTacToe) :
  (game_after (click_tictactoe me room i pos t) = t
   ∧ emitted (click_tictactoe me room i pos t) = [])
  ∨ (ttt_winner t = None
     ∧ game_after (click_tictactoe me room i pos t) = assign_players me t
     ∧ emitted (click_tictactoe me room i pos t) = [])
  ∨ (∃ cell, ttt_winner t = None ∧ board t !! cell = Some None
       ∧ holds_turn me (assign_players me t)
       ∧ game_after (click_tictactoe me room i pos t)
         = place_mark cell (assign_players me t)
       ∧ emitted (click_tictactoe me room i pos t)
         = [ game_move room i
               (EGame (GTicTacToe (place_mark cell (assign_players me t)))) ]).
Proof.
  unfold click_tictactoe.
  destruct (in_bounds pos t); [| by left].
  destruct (ttt_winner t) as [w|] eqn:Hw.
  { rewrite bool_decide_eq_true_2 by done. by left. }
  rewrite (bool_decide_eq_false_2 (None ≠ None)) by (intros Hn; by apply Hn).
  cbv beta iota zeta.
  destruct (_ || _) eqn:Hturn; [right; by left |].
  apply turn_check_holds in Hturn.
  unfold null_cell.
  destruct (num_index _) as [cell|]; [| right; by left].
  destruct (bool_decide _) eqn:Hcell; [| right; by left].
  apply bool_decide_eq_true_1 in Hcell.
  right. right. by exists cell.
Qed.

(** X13. Out of turn, nothing is played: a click within a game without
    winner by a connection that does not hold the mark of [currentPlayer]
    once free marks are assigned changes neither board nor turn nor
    winner, emits nothing, and is consumed. *)
Theorem click_out_of_turn `{JSNum} (me room : string) (i : nat) (pos : Point)
    (t : TicTacToe) :
  in_bounds pos t = true →
  ttt_winner t = None →
  ¬ holds_turn me (assign_players me t) →
  game_after (click_tictactoe me room i pos t) = assign_players me t
  ∧ board (game_after (click_tictactoe me room i pos t)) = board t
  ∧ currentPlayer (game_after (click_tictactoe me room i pos t))
    = currentPlayer t
  ∧ emitted (click_tictactoe me room i pos t) = []
  ∧ consumed (click_tictactoe me room i pos t) = true.
Proof.
  intros Hin Hw Hnot. unfold click_tictactoe. rewrite Hin, Hw.
  rewrite (bool_decide_eq_false_2 (None ≠ None)) by (intros Hn; by apply Hn).
  cbv beta iota zeta.
  destruct (_ || _) eqn:Hturn; [done |].
  by apply turn_check_holds in Hturn.
Qed.

Lemma click_out_of_turn_witness :
  let r := click_tictactoe "A" "1" 0 (pt 150 150) tictactoe_after_A in
  game_after r = assign_players "A" tictactoe_after_A
  ∧ board (game_after r) = board tictactoe_after_A
  ∧ currentPlayer (game_after r) = currentPlayer tictactoe_after_A
  ∧ emitted r = [] ∧ consumed r = true.
Proof.
  apply (click_out_of_turn "A" "1" 0 (pt 150 150) tictactoe_after_A).
  - vm_compute. reflexivity.
  - vm_compute. reflexivity.
  - vm_compute. intros [[Hc _] | [_ Hp]]; discriminate.
Defined.

Lemma place_mark_board `{JSNum} (cell : nat) (t : TicTacToe) :
  board (place_mark cell t) = <[cell := Some (currentPlayer t)]> (board t)
  ∧ playerX (place_mark cell t) = playerX t
  ∧ playerO (place_mark cell t) = playerO t.
Proof.
  unfold place_mark. by destruct (checkTicTacToeWinner _) as [[w l]|].
Qed.

(** X14. A mark, once placed, stays: whatever clicks follow, by whatever
    connections, a cell that holds a mark holds the same mark afterwards. *)
Theorem marks_are_permanent `{JSNum} (room : string) (i : nat)
    (clicks : list (string * Point)) (t : TicTacToe) (cell : nat) (m : Mark) :
  board t !! cell = Some (Some m) →
  board (clicks_tictactoe room i clicks t) !! cell = Some (Some m).
Proof.
  revert t. induction clicks as [|[me pos] rest IH]; intros t Hcell; [done |].
  cbn. apply IH.
  destruct (click_cases me room i pos t)
    as [[-> _] | [(_ & -> & _) | (c & _ & Hc & _ & -> & _)]]; try done.
  destruct (place_mark_board c (assign_players me t)) as (-> & _ & _).
  cbn. rewrite list_lookup_insert_ne; [done |]. intros ->. congruence.
Qed.

Lemma marks_are_permanent_witness :
  board (clicks_tictactoe "1" 0
           [("B", pt 250 250); ("B", pt 150 150); ("A", pt 250 250)]
           tictactoe_after_A) !! 4
  = Some (Some X).
Proof.
  apply marks_are_permanent. vm_compute. reflexivity.
Defined.

(** X15. A finished game is final: once a game has a winner or is drawn,
    no sequence of clicks changes anything in it. *)
Theorem finished_game_is_final `{JSNum} (room : string) (i : nat)
    (clicks : list (string * Point)) (t : TicTacToe) :
  ttt_winner t ≠ None →
  clicks_tictactoe room i clicks t = t.
Proof.
  intros Hw. induction clicks as [|[me pos] rest IH]; [done |]. cbn.
  destruct (click_cases me room i pos t)
    as [[-> _] | [(Hn & _) | (c & Hn & _)]]; done.
Qed.

Lemma finished_game_is_final_witness :
  ttt_winner tictactoe_won = Some (Won X)
  ∧ clicks_tictactoe "1" 0 [("B", pt 350 350); ("A", pt 150 350)]
      tictactoe_won
    = tictactoe_won.
Proof.
  split; [vm_compute; reflexivity |].
  apply finished_game_is_final. vm_compute. discriminate.
Defined.

Lemma assign_players_keeps `{JSNum} (me : string) (t : TicTacToe) :
  (truthy_id (playerX t) = true → playerX (assign_players me t) = playerX t)
  ∧ (truthy_id (playerO t) = true
     → playerO (assign_players me t) = playerO t).
Proof.
  unfold assign_players. cbn. split; intros Ht; by rewrite Ht.
Qed.

(** X16. Marks are handed out once: a mark held by a connection stays with
    that connection whatever clicks follow, by whatever connections. *)
Theorem players_are_permanent `{JSNum} (room : string) (i : nat)
    (clicks : list (string * Point)) (t : TicTacToe) :
  (truthy_id (playerX t) = true →
     playerX (clicks_tictactoe room i clicks t) = playerX t)
  ∧ (truthy_id (playerO t) = true →
     playerO (clicks_tictactoe room i clicks t) = playerO t).
Proof.
  revert t. induction clicks as [|[me pos] rest IH]; intros t; [done |].
  cbn. set (t1 := game_after (click_tictactoe me room i pos t)).
  assert (Hstep : (truthy_id (playerX t) = true → playerX t1 = playerX t)
                  ∧ (truthy_id (playerO t) = true → playerO t1 = playerO t)).
  { unfold t1.
    destruct (click_cases me room i pos t)
      as [[-> _] | [(_ & -> & _) | (c & _ & _ & _ & -> & _)]]; [done | |].
    - apply assign_players_keeps.
    - destruct (place_mark_board c (assign_players me t)) as (_ & -> & ->).
      apply assign_players_keeps. }
  destruct Hstep as [Hx Ho]. destruct (IH t1) as [IHx IHo].
  split; intros Ht.
  - rewrite <- (Hx Ht). apply IHx. by rewrite (Hx Ht).
  - rewrite <- (Ho Ht). apply IHo. by rewrite (Ho Ht).
Qed.

Lemma players_are_permanent_witness :
  playerX (clicks_tictactoe "1" 0 [("C", pt 150 150); ("B", pt 350 350)]
             tictactoe_after_A)
  = Some "A".
Proof.
  apply (players_are_permanent "1" 0 [("C", pt 150 150); ("B", pt 350 350)]
           tictactoe_after_A).
  vm_compute. reflexivity.
Defined.

(** The two marks are with different connections, X being given first. *)
Lemma players_distinct_step `{JSNum} (me room : string) (i : nat)
    (pos : Point) (t : TicTacToe) :
  (truthy_id (playerO t) = true →
     truthy_id (playerX t) = true ∧ playerO t ≠ playerX t) →
  truthy_id (playerO (game_after (click_tictactoe me room i pos t))) = true →
  truthy_id (playerX (game_after (click_tictactoe me room i pos t))) = true
  ∧ playerO (game_after (click_tictactoe me room i pos t))
    ≠ playerX (game_after (click_tictactoe me room i pos t)).
Proof.
  intros Hinv.
  assert (Hassign :
    truthy_id (playerO (assign_players me t)) = true →
    truthy_id (playerX (assign_players me t)) = true
    ∧ playerO (assign_players me t) ≠ playerX (assign_players me t)).
  { unfold assign_players, id_is. cbn.
    destruct (truthy_id (playerO t)) eqn:Ho; cbn.
    - destruct (Hinv eq_refl) as [Hx Hne]. by rewrite Hx.
    - destruct (truthy_id (playerX t)) eqn:Hx; cbn.
      + case_bool_decide as Heq; cbn; [by rewrite Ho |].
        intros _. split; [done | congruence].
      + rewrite bool_decide_eq_true_2 by done. cbn. by rewrite Ho. }
  destruct (click_cases me room i pos t)
    as [[-> _] | [(_ & -> & _) | (c & _ & _ & _ & -> & _)]]; [done | done |].
  by destruct (place_mark_board c (assign_players me t)) as (_ & -> & ->).
Qed.

(** X17. No connection plays against itself: in a game reached by any
    clicks from a freshly placed one, player O, once there, is another
    connection than player X, who was there first. *)
Theorem players_are_distinct `{JSNum} (room : string) (i : nat)
    (clicks : list (string * Point)) (pos : Point) :
  truthy_id (playerO (clicks_tictactoe room i clicks (new_tictactoe pos)))
  = true →
  truthy_id (playerX (clicks_tictactoe room i clicks (new_tictactoe pos)))
  = true
  ∧ playerO (clicks_tictactoe room i clicks (new_tictactoe pos))
    ≠ playerX (clicks_tictactoe room i clicks (new_tictactoe pos)).
Proof.
  assert (Hgen : ∀ t,
    (truthy_id (playerO t) = true →
       truthy_id (playerX t) = true ∧ playerO t ≠ playerX t) →
    truthy_id (playerO (clicks_tictactoe room i clicks t)) = true →
    truthy_id (playerX (clicks_tictactoe room i clicks t)) = true
    ∧ playerO (clicks_tictactoe room i clicks t)
      ≠ playerX (clicks_tictactoe room i clicks t)).
  { induction clicks as [|[me p] rest IH]; intros t Hinv; [done |].
    cbn. apply IH. by apply players_distinct_step. }
  apply Hgen. cbn. discriminate.
Qed.

Lemma players_are_distinct_witness :
  truthy_id (playerX (clicks_tictactoe "1" 0
                        [("A", pt 250 250); ("A", pt 150 150);
                         ("B", pt 150 150)]
                        (new_tictactoe (pt 100 100)))) = true
  ∧ playerO (clicks_tictactoe "1" 0
               [("A", pt 250 250); ("A", pt 150 150); ("B", pt 150 150)]
               (new_tictactoe (pt 100 100)))
    ≠ playerX (clicks_tictactoe "1" 0
                 [("A", pt 250 250); ("A", pt 150 150); ("B", pt 150 150)]
                 (new_tictactoe (pt 100 100))).
Proof.
  apply players_are_distinct. vm_compute. reflexivity.
Defined.

Lemma marks_insert (m m' : Mark) (b : list (option Mark)) (cell : nat) :
  b !! cell = Some None →
  marks m (<[cell := Some m']> b)
  = marks m b + (if decide (m' = m) then 1 else 0).
Proof.
  unfold marks. revert cell. induction b as [|c rest IH]; intros cell Hcell.
  - done.
  - destruct cell as [|cell].
    + injection Hcell as ->.
      change (<[0 := Some m']> (None :: rest)) with (Some m' :: rest).
      rewrite (filter_cons_False _ None) by done.
      destruct (decide (m' = m)) as [-> | Hne].
      * rewrite filter_cons_True by done. cbn. lia.
      * rewrite filter_cons_False by congruence. lia.
    + change (<[S cell := Some m']> (c :: rest))
        with (c :: <[cell := Some m']> rest).
      rewrite !filter_cons. destruct (decide (c = Some m)); cbn;
        rewrite (IH cell Hcell); lia.
Qed.

(** The turn matches the marks on the board. *)
Lemma marks_balanced_step `{JSNum} (me room : string) (i : nat) (pos : Point)
    (t : TicTacToe) :
  ((marks O (board t) ≤ marks X (board t) ≤ marks O (board t) + 1)%nat
   ∧ (ttt_winner t = None →
      marks X (board t)
      = marks O (board t) + (if decide (currentPlayer t = O) then 1 else 0)))
  →
  let t' := game_after (click_tictactoe me room i pos t) in
  (marks O (board t') ≤ marks X (board t') ≤ marks O (board t') + 1)%nat
  ∧ (ttt_winner t' = None →
     marks X (board t')
     = marks O (board t') + (if decide (currentPlayer t' = O) then 1 else 0)).
Proof.
  intros Hinv t'. unfold t'.
  destruct (click_cases me room i pos t)
    as [[-> _] | [(_ & -> & _) | (c & Hw & Hc & _ & -> & _)]]; [done | done |].
  destruct Hinv as [_ Hbal]. specialize (Hbal Hw).
  unfold place_mark.
  change (board (assign_players me t)) with (board t).
  change (currentPlayer (assign_players me t)) with (currentPlayer t).
  change (ttt_winner (assign_players me t)) with (ttt_winner t).
  assert (Hcount :
    (marks O (<[c := Some (currentPlayer t)]> (board t))
     ≤ marks X (<[c := Some (currentPlayer t)]> (board t))
     ≤ marks O (<[c := Some (currentPlayer t)]> (board t)) + 1)%nat
    ∧ marks X (<[c := Some (currentPlayer t)]> (board t))
      = marks O (<[c := Some (currentPlayer t)]> (board t))
        + (if decide (other_mark (currentPlayer t) = O) then 1 else 0)).
  { rewrite !(marks_insert _ _ _ _ Hc).
    destruct (currentPlayer t); cbn in *;
      repeat (case_decide; try done); lia. }
  destruct (checkTicTacToeWinner _) as [[w l]|]; cbn.
  - split; [apply Hcount | discriminate].
  - split; [apply Hcount |]. intros _. apply Hcount.
Qed.

(** X18. Marks alternate: in a game reached by any clicks from a freshly
    placed one, X has as many marks on the board as O or one more; while
    the game is undecided, one more exactly when it is O's turn. *)
Theorem marks_alternate `{JSNum} (room : string) (i : nat)
    (clicks : list (string * Point)) (pos : Point) :
  let t := clicks_tictactoe room i clicks (new_tictactoe pos) in
  (marks O (board t) ≤ marks X (board t) ≤ marks O (board t) + 1)%nat
  ∧ (ttt_winner t = None →
     marks X (board t)
     = marks O (board t) + (if decide (currentPlayer t = O) then 1 else 0)).
Proof.
  assert (Hgen : ∀ t,
    ((marks O (board t) ≤ marks X (board t) ≤ marks O (board t) + 1)%nat
     ∧ (ttt_winner t = None →
        marks X (board t)
        = marks O (board t)
          + (if decide (currentPlayer t = O) then 1 else 0))) →
    let t' := clicks_tictactoe room i clicks t in
    (marks O (board t') ≤ marks X (board t') ≤ marks O (board t') + 1)%nat
    ∧ (ttt_winner t' = None →
       marks X (board t')
       = marks O (board t')
         + (if decide (currentPlayer t' = O) then 1 else 0))).
  { induction clicks as [|[me p] rest IH]; intros t Hinv; [done |].
    cbn. apply IH. by apply marks_balanced_step. }
  apply Hgen. split; [vm_compute; lia | intros _; vm_compute; reflexivity].
Qed.

Lemma marks_alternate_witness :
  let t := clicks_tictactoe "1" 0
             [("A", pt 250 250); ("A", pt 150 150); ("B", pt 150 150)]
             (new_tictactoe (pt 100 100)) in
  marks X (board t) = marks O (board t) + 0.
Proof.
  intros t.
  apply (marks_alternate "1" 0
           [("A", pt 250 250); ("A", pt 150 150); ("B", pt 150 150)]
           (pt 100 100)).
  vm_compute. reflexivity.
Defined.

(** X19. The winner shown is the verdict on the board: in a game reached
    by any clicks from a freshly placed one, [winner] and [winLine] are
    what [checkTicTacToeWinner] says of the board, and an undecided game
    has no verdict yet. *)
Theorem winner_matches_board `{JSNum} (room : string) (i : nat)
    (clicks : list (string * Point)) (pos : Point) :
  let t := clicks_tictactoe room i clicks (new_tictactoe pos) in
  match checkTicTacToeWinner (board t) with
  | Some (w, l) => ttt_winner t = Some w ∧ winLine t = l
  | None => ttt_winner t = None ∧ winLine t = None
  end.
Proof.
  assert (Hgen : ∀ t,
    match checkTicTacToeWinner (board t) with
    | Some (w, l) => ttt_winner t = Some w ∧ winLine t = l
    | None => ttt_winner t = None ∧ winLine t = None
    end →
    let t' := clicks_tictactoe room i clicks t in
    match checkTicTacToeWinner (board t') with
    | Some (w, l) => ttt_winner t' = Some w ∧ winLine t' = l
    | None => ttt_winner t' = None ∧ winLine t' = None
    end).
  { induction clicks as [|[me p] rest IH]; intros t Hinv; [done |].
    cbn. apply IH.
    destruct (click_cases me room i p t)
      as [[-> _] | [(_ & -> & _) | (c & Hw & Hc & _ & -> & _)]];
      [done | done |].
    unfold place_mark.
    change (board (assign_players me t)) with (board t).
    change (currentPlayer (assign_players me t)) with (currentPlayer t).
    change (ttt_winner (assign_players me t)) with (ttt_winner t).
    change (winLine (assign_players me t)) with (winLine t).
    destruct (checkTicTacToeWinner (<[c:=_]> (board t))) as [[w l]|] eqn:Hv;
      cbn; rewrite Hv; [done |].
    split; [done |].
    destruct (checkTicTacToeWinner (board t)) as [[w l]|];
      destruct Hinv; congruence. }
  apply Hgen. by vm_compute.
Qed.

(** ** The ping-pong loop *)

(** X20. The loop idles unless the game is in play: while the game has a
    winner, is not started, is paused, or lacks a player, a run of the loop
    changes nothing on the client, [lastUpdate] included, and emits
    nothing. *)
Theorem loop_idles_unless_in_play `{JSNum} (gameIndex : nat) (now : num)
    (rnd : nat → num) (c : Client) (g : PingPong) :
  paths c !! gameIndex = Some (EGame (GPingPong g)) →
  pp_winner g ≠ None ∨ gameStarted g = false ∨ paused g = true
  ∨ truthy_id (playerLeft g) = false ∨ truthy_id (playerRight g) = false →
  interval_fires gameIndex now rnd c = (c, []).
Proof.
  intros Hl Hidle. unfold interval_fires.
  destruct (bool_decide _); [| done].
  unfold pingpong_tick. rewrite Hl.
  destruct Hidle as [Hw | [Hs | [Hp | [Hpl | Hpr]]]].
  - by rewrite bool_decide_eq_true_2.
  - rewrite Hs. cbn. by rewrite orb_true_r.
  - rewrite Hp. by rewrite orb_true_r.
  - rewrite Hpl. cbn. by destruct (_ || _).
  - rewrite Hpr. cbn. rewrite orb_true_r. by destruct (_ || _).
Qed.

Lemma loop_idles_unless_in_play_witness :
  let waiting := new_pingpong (pt 0 0) (zn 0) in
  let c := client_playing "A" [EGame (GPingPong waiting)] in
  interval_fires 0 (zn 16) rnd_075 c = (c, []).
Proof.
  intros waiting c.
  apply (loop_idles_unless_in_play 0 (zn 16) rnd_075 c waiting).
  - reflexivity.
  - right. left. reflexivity.
Defined.

(** X21. An orphaned loop stops itself: when the element at the index of a
    running loop is no ping-pong game (any more), the next run of the loop
    removes it from [pingPongLoops], leaves the elements alone and emits
    nothing, and from then on the loop never runs again. *)
Theorem orphaned_loop_stops `{JSNum} (gameIndex : nat) (now now' : num)
    (rnd rnd' : nat → num) (c : Client) :
  (∀ g, paths c !! gameIndex ≠ Some (EGame (GPingPong g))) →
  (gameIndex ∉ pingPongLoops (interval_fires gameIndex now rnd c).1)
  ∧ paths (interval_fires gameIndex now rnd c).1 = paths c
  ∧ (interval_fires gameIndex now rnd c).2 = []
  ∧ interval_fires gameIndex now' rnd'
      (interval_fires gameIndex now rnd c).1
    = ((interval_fires gameIndex now rnd c).1, []).
Proof.
  intros Hno.
  assert (Hrun : interval_fires gameIndex now rnd c
                 = (if bool_decide (gameIndex ∈ pingPongLoops c)
                    then stopPingPongLoop gameIndex c else c, [])).
  { unfold interval_fires. destruct (bool_decide _); [| done].
    unfold pingpong_tick.
    destruct (paths c !! gameIndex) as [[| | | |[t|g]]|] eqn:Hl; try done.
    by destruct (Hno g). }
  rewrite Hrun. cbn [fst snd].
  assert (Hout : gameIndex ∉ pingPongLoops
            (if bool_decide (gameIndex ∈ pingPongLoops c)
             then stopPingPongLoop gameIndex c else c)).
  { case_bool_decide as Hin; [| done]. cbn.
    rewrite elem_of_difference, elem_of_singleton. tauto. }
  split; [done |]. split; [by destruct (bool_decide _) |]. split; [done |].
  unfold interval_fires. by rewrite bool_decide_eq_false_2.
Qed.

Lemma orphaned_loop_stops_witness :
  let c := client_playing "A" [line3] in
  (0 ∉ pingPongLoops (interval_fires 0 (zn 16) rnd_075 c).1)
  ∧ paths (interval_fires 0 (zn 16) rnd_075 c).1 = paths c
  ∧ (interval_fires 0 (zn 16) rnd_075 c).2 = []
  ∧ interval_fires 0 (zn 32) rnd_075 (interval_fires 0 (zn 16) rnd_075 c).1
    = ((interval_fires 0 (zn 16) rnd_075 c).1, []).
Proof.
  intros c. apply (orphaned_loop_stops 0 (zn 16) (zn 32) rnd_075 rnd_075 c).
  intros g. vm_compute. discriminate.
Defined.

Lemma start_loops_from_spec `{JSNum} (data : list Element) (index : nat)
    (c : Client) :
  paths (start_loops_from index data c) = paths c
  ∧ isDraggingImage (start_loops_from index data c) = isDraggingImage c
  ∧ isResizingImage (start_loops_from index data c) = isResizingImage c
  ∧ ∀ i, i ∈ pingPongLoops (start_loops_from index data c)
         ↔ i ∈ pingPongLoops c
           ∨ ∃ j e, i = index + j ∧ data !! j = Some e
                    ∧ pingpong_running e = true.
Proof.
  revert index c. induction data as [|el rest IH]; intros index c; cbn.
  - do 3 (split; [done |]). intros i. split; [by left |].
    intros [Hi | (j & e & _ & Hj & _)]; [done | by destruct j].
  - destruct (IH (S index)
                (if pingpong_running el then startPingPongLoop index c
                 else c)) as (Hp & Hd & Hr & Hloops).
    assert (Hstart :
      paths (startPingPongLoop index c) = paths c
      ∧ isDraggingImage (startPingPongLoop index c) = isDraggingImage c
      ∧ isResizingImage (startPingPongLoop index c) = isResizingImage c
      ∧ ∀ i, i ∈ pingPongLoops (startPingPongLoop index c)
             ↔ i ∈ pingPongLoops c ∨ i = index).
    { unfold startPingPongLoop. case_bool_decide as Hin; cbn.
      - do 3 (split; [done |]). intros i.
        split; [by left | by intros [? | ->]].
      - do 3 (split; [done |]). intros i.
        rewrite elem_of_union, elem_of_singleton. tauto. }
    destruct Hstart as (Hsp & Hsd & Hsr & Hsl).
    rewrite Hp, Hd, Hr.
    split; [by destruct (pingpong_running el) |].
    split; [by destruct (pingpong_running el) |].
    split; [by destruct (pingpong_running el) |].
    intros i. rewrite Hloops. split.
    + intros [Hi | (j & e & -> & Hj & He)].
      * destruct (pingpong_running el) eqn:Hel; [| by left].
        apply Hsl in Hi as [Hi | ->]; [by left |].
        right. exists 0, el. split; [lia | done].
      * right. exists (S j), e. split; [lia | done].
    + intros [Hi | (j & e & -> & Hj & He)].
      * left. destruct (pingpong_running el); [apply Hsl; by left | done].
      * destruct j as [|j]; cbn in Hj.
        -- injection Hj as ->. left. rewrite He. apply Hsl. right. lia.
        -- right. exists j, e. split; [lia | done].
Qed.

(** X22. An accepted [canvas_data] replaces the canvas and sees to the
    loops: with the flag down, the elements become the data received, every
    started, undecided ping-pong game among them has its loop running
    afterwards, and the loops running are those that ran before and those
    of such games. *)
Theorem canvas_data_starts_loops `{JSNum} (data : list Element) (c : Client) :
  isLocalUpdate c = false →
  paths (client_on_canvas_data data c) = data
  ∧ ∀ i, i ∈ pingPongLoops (client_on_canvas_data data c)
         ↔ i ∈ pingPongLoops c
           ∨ ∃ e, data !! i = Some e ∧ pingpong_running e = true.
Proof.
  intros Hflag. unfold client_on_canvas_data. rewrite Hflag.
  destruct (start_loops_from_spec data 0 c) as (Hp & Hd & Hr & Hloops).
  assert (Hsame : ∀ l c0, pingPongLoops (set_paths l c0) = pingPongLoops c0)
    by done.
  split.
  - by destruct (_ && _).
  - intros i.
    assert (Hl : pingPongLoops
              (if negb (isDraggingImage (set_paths data
                                           (start_loops_from 0 data c)))
                  && negb (isResizingImage (set_paths data
                                              (start_loops_from 0 data c)))
               then set_selectedImage None
                      (set_paths data (start_loops_from 0 data c))
               else set_paths data (start_loops_from 0 data c))
             = pingPongLoops (start_loops_from 0 data c))
      by (by destruct (_ && _)).
    rewrite Hl, Hloops. split.
    + intros [Hi | (j & e & -> & Hj & He)]; [by left | right; by exists e].
    + intros [Hi | (e & Hj & He)]; [by left |]. right. by exists i, e.
Qed.

Lemma canvas_data_starts_loops_witness :
  let data := [line3; EGame (GPingPong pingpong_AB)] in
  paths (client_on_canvas_data data (client_showing "B" [])) = data
  ∧ 1 ∈ pingPongLoops (client_on_canvas_data data (client_showing "B" [])).
Proof.
  intros data.
  destruct (canvas_data_starts_loops data (client_showing "B" []) eq_refl)
    as [Hpaths Hloops].
  split; [exact Hpaths |].
  apply Hloops. right. eexists. split; reflexivity.
Defined.

(** ** The physics step *)

(** What scoring leaves alone, and when it declares a winner. *)
Lemma score_right_spec `{JSNum} (rnd : nat → num) (g : PingPong) (n : nat)
    (stopped : bool) :
  let '(g', _, stopped') := score_right rnd (g, n, stopped) in
  playerLeft g' = playerLeft g ∧ playerRight g' = playerRight g
  ∧ gameStarted g' = gameStarted g ∧ paused g' = paused g
  ∧ paddleLeft g' = paddleLeft g
  ∧ pad_y (paddleRight g') = pad_y (paddleRight g)
  ∧ (pp_winner g' = pp_winner g ∧ stopped' = stopped
     ∨ pp_winner g' = Some SideRight ∧ stopped' = true
       ∧ (pad_score (paddleRight g') >=? num_int 7)%num = true).
Proof.
  unfold score_right. destruct (_ <=? _)%num; [| by repeat split; try left].
  cbn. destruct (_ <=? _)%num eqn:Hscore; cbn.
  - repeat split; try done. by right.
  - repeat split; try done. by left.
Qed.

Lemma score_left_spec `{JSNum} (rnd : nat → num) (g : PingPong) (n : nat)
    (stopped : bool) :
  let '(g', _, stopped') := score_left rnd (g, n, stopped) in
  playerLeft g' = playerLeft g ∧ playerRight g' = playerRight g
  ∧ gameStarted g' = gameStarted g ∧ paused g' = paused g
  ∧ paddleRight g' = paddleRight g
  ∧ pad_y (paddleLeft g') = pad_y (paddleLeft g)
  ∧ (pp_winner g' = pp_winner g ∧ stopped' = stopped
     ∨ pp_winner g' = Some SideLeft ∧ stopped' = true
       ∧ (pad_score (paddleLeft g') >=? num_int 7)%num = true).
Proof.
  unfold score_left. destruct (_ <=? _)%num; [| by repeat split; try left].
  cbn. destruct (_ <=? _)%num eqn:Hscore; cbn.
  - repeat split; try done. by right.
  - repeat split; try done. by left.
Qed.

(** X23. The physics step declares a winner only on a score of at least
    seven, and clears the loop exactly then: for a game without winner, the
    step ends with the loop cleared if and only if it ends with a winner,
    a winner's paddle passes the test [score >= 7], and players, start and
    pause flags and the height of either paddle are what they were. *)
Theorem physics_step_winner `{JSNum} (deltaTime : num) (rnd : nat → num)
    (g : PingPong) :
  pp_winner g = None →
  let g' := (physics_step deltaTime rnd g).1.1 in
  let stopped := (physics_step deltaTime rnd g).2 in
  (stopped = true ↔ pp_winner g' ≠ None)
  ∧ (pp_winner g' = Some SideLeft →
     (pad_score (paddleLeft g') >=? num_int 7)%num = true)
  ∧ (pp_winner g' = Some SideRight →
     (pad_score (paddleRight g') >=? num_int 7)%num = true)
  ∧ playerLeft g' = playerLeft g ∧ playerRight g' = playerRight g
  ∧ gameStarted g' = gameStarted g ∧ paused g' = paused g
  ∧ pad_y (paddleLeft g') = pad_y (paddleLeft g)
  ∧ pad_y (paddleRight g') = pad_y (paddleRight g).
Proof.
  intros Hw. unfold physics_step.
  set (g0 := set_ball _ g).
  pose proof (score_right_spec rnd g0 0 false) as Hr.
  destruct (score_right rnd (g0, 0, false)) as [[g1 n1] s1].
  pose proof (score_left_spec rnd g1 n1 s1) as Hl.
  destruct (score_left rnd (g1, n1, s1)) as [[g2 n2] s2]. cbn.
  destruct Hr as (Hr1 & Hr2 & Hr3 & Hr4 & Hr5 & Hr6 & Hr7).
  destruct Hl as (Hl1 & Hl2 & Hl3 & Hl4 & Hl5 & Hl6 & Hl7).
  change (pp_winner g0) with (pp_winner g) in Hr7. rewrite Hw in Hr7.
  assert (Hframe :
    playerLeft g2 = playerLeft g ∧ playerRight g2 = playerRight g
    ∧ gameStarted g2 = gameStarted g ∧ paused g2 = paused g
    ∧ pad_y (paddleLeft g2) = pad_y (paddleLeft g)
    ∧ pad_y (paddleRight g2) = pad_y (paddleRight g)).
  { rewrite Hl1, Hl2, Hl3, Hl4, Hl5, Hl6, Hr1, Hr2, Hr3, Hr4, Hr5, Hr6.
    done. }
  assert (Hverdict :
    (s2 = true ↔ pp_winner g2 ≠ None)
    ∧ (pp_winner g2 = Some SideLeft →
       (pad_score (paddleLeft g2) >=? num_int 7)%num = true)
    ∧ (pp_winner g2 = Some SideRight →
       (pad_score (paddleRight g2) >=? num_int 7)%num = true)).
  { destruct Hl7 as [[Hlw Hls] | (Hlw & Hls & Hlscore)].
    - destruct Hr7 as [[Hrw Hrs] | (Hrw & Hrs & Hrscore)];
        rewrite Hlw, Hrw, Hls, Hrs, Hl5.
      + split; [split; [discriminate | by intros Hn] |].
        split; discriminate.
      + split; [split; [discriminate | done] |].
        split; [discriminate | done].
    - rewrite Hlw, Hls. split; [split; [discriminate | done] |].
      split; [done | discriminate]. }
  destruct Hverdict as (Hv1 & Hv2 & Hv3).
  split; [exact Hv1 |]. split; [exact Hv2 |]. split; [exact Hv3 |].
  exact Hframe.
Qed.

Lemma physics_step_winner_witness :
  let g' := (physics_step (zn 1) rnd_075 pingpong_AB).1.1 in
  let stopped := (physics_step (zn 1) rnd_075 pingpong_AB).2 in
  (stopped = true ↔ pp_winner g' ≠ None)
  ∧ playerLeft g' = Some "A" ∧ playerRight g' = Some "B".
Proof.
  intros g' stopped.
  destruct (physics_step_winner (zn 1) rnd_075 pingpong_AB eq_refl)
    as (Hstop & _ & _ & Hl & Hr & _).
  split; [exact Hstop |]. split; [exact Hl | exact Hr].
Defined.

(** ** Taking and dragging a paddle *)

Lemma start_if_ready_spec `{JSNum} (room : string) (i : nat) (g : PingPong) :
  let '(g', out, loop) := start_if_ready room i g in
  playerLeft g' = playerLeft g ∧ playerRight g' = playerRight g
  ∧ ball g' = ball g ∧ paddleLeft g' = paddleLeft g
  ∧ paddleRight g' = paddleRight g
  ∧ (gameStarted g = true → gameStarted g' = true)
  ∧ (gameStarted g' = true →
     gameStarted g = true
     ∨ truthy_id (playerLeft g') = true ∧ truthy_id (playerRight g') = true).
Proof.
  unfold start_if_ready.
  destruct (gameStarted g) eqn:Hs; cbn.
  { do 6 (split; [done |]). intros _. by left. }
  destruct (truthy_id (playerLeft g)) eqn:Hl; cbn;
    [| do 6 (split; [done |]); by rewrite Hs].
  destruct (truthy_id (playerRight g)) eqn:Hr; cbn;
    [| do 6 (split; [done |]); by rewrite Hs].
  do 6 (split; [done |]). intros _. by right.
Qed.

(** X24. Paddles are handed out once and dragged by their holder only.  A
    click on a ping-pong game leaves a paddle someone holds with that
    connection; it makes a connection the right player only if that
    connection is not the left player; it begins a drag only of a paddle
    the clicking connection holds afterwards; it never takes back the start
    of a game and starts one only with both players there; and it leaves
    ball and paddles alone. *)
Theorem paddles_handed_out_once `{JSNum} (me room : string) (i : nat)
    (pos : Point) (g : PingPong) :
  (truthy_id (playerLeft g) = true →
     playerLeft (pp_after (click_pingpong me room i pos g)) = playerLeft g)
  ∧ (truthy_id (playerRight g) = true →
     playerRight (pp_after (click_pingpong me room i pos g)) = playerRight g)
  ∧ (playerRight (pp_after (click_pingpong me room i pos g)) ≠ playerRight g →
     playerRight (pp_after (click_pingpong me room i pos g)) = Some me
     ∧ playerLeft (pp_after (click_pingpong me room i pos g)) ≠ Some me)
  ∧ (pp_drag (click_pingpong me room i pos g) = Some SideLeft →
     playerLeft (pp_after (click_pingpong me room i pos g)) = Some me)
  ∧ (pp_drag (click_pingpong me room i pos g) = Some SideRight →
     playerRight (pp_after (click_pingpong me room i pos g)) = Some me)
  ∧ (gameStarted g = true →
     gameStarted (pp_after (click_pingpong me room i pos g)) = true)
  ∧ (gameStarted (pp_after (click_pingpong me room i pos g)) = true →
     gameStarted g = true
     ∨ truthy_id (playerLeft (pp_after (click_pingpong me room i pos g)))
       = true
       ∧ truthy_id (playerRight (pp_after (click_pingpong me room i pos g)))
         = true)
  ∧ ball (pp_after (click_pingpong me room i pos g)) = ball g
  ∧ paddleLeft (pp_after (click_pingpong me room i pos g)) = paddleLeft g
  ∧ paddleRight (pp_after (click_pingpong me room i pos g)) = paddleRight g.
Proof.
  unfold click_pingpong.
  destruct (on_table pos g); [| by repeat split; try left].
  destruct (bool_decide (pp_winner g ≠ None)); [by repeat split; try left |].
  destruct (on_paddle pos g (paddleLeft g)).
  - destruct (truthy_id (playerLeft g)) eqn:Hl; cbn.
    + pose proof (start_if_ready_spec room i g) as Hs.
      destruct (start_if_ready room i g) as [[g2 out2] loop]. cbn.
      destruct Hs as (-> & -> & -> & -> & -> & Hs1 & Hs2).
      unfold id_is. repeat split; try done.
      * intros Hd. case_bool_decide; [done | discriminate].
      * intros Hd. by case_bool_decide.
    + pose proof (start_if_ready_spec room i (set_playerLeft (Some me) g))
        as Hs.
      destruct (start_if_ready room i _) as [[g2 out2] loop]. cbn.
      destruct Hs as (-> & -> & -> & -> & -> & Hs1 & Hs2).
      cbn. unfold id_is. repeat split; try done.
      * intros Hd. by case_bool_decide.
  - destruct (on_paddle pos g (paddleRight g));
      [| by repeat split; try left].
    destruct (negb (truthy_id (playerRight g)) && negb (id_is me (playerLeft g)))
      eqn:Hassign; cbn.
    + apply andb_true_iff in Hassign as [Hr Hne].
      apply negb_true_iff in Hr. apply negb_true_iff in Hne.
      apply bool_decide_eq_false_1 in Hne.
      pose proof (start_if_ready_spec room i (set_playerRight (Some me) g))
        as Hs.
      destruct (start_if_ready room i _) as [[g2 out2] loop]. cbn.
      destruct Hs as (-> & -> & -> & -> & -> & Hs1 & Hs2).
      cbn. unfold id_is. repeat split; try done; try congruence.
      intros Hd. by case_bool_decide.
    + pose proof (start_if_ready_spec room i g) as Hs.
      destruct (start_if_ready room i g) as [[g2 out2] loop]. cbn.
      destruct Hs as (-> & -> & -> & -> & -> & Hs1 & Hs2).
      unfold id_is. repeat split; try done.
      * intros Hd. by case_bool_decide.
      * intros Hd. case_bool_decide; [done | discriminate].
Qed.

Lemma paddles_handed_out_once_witness :
  let g := set_playerLeft (Some "A") (new_pingpong (pt 0 0) (zn 0)) in
  let r := click_pingpong "B" "1" 0 (pt 26 200) g in
  playerLeft (pp_after r) = Some "A" ∧ pp_drag r = None.
Proof.
  intros g r.
  destruct (paddles_handed_out_once "B" "1" 0 (pt 26 200) g)
    as (Hl & _).
  split; [apply Hl; reflexivity | vm_compute; reflexivity].
Defined.

(** X25. A drag moves the dragging connection's own paddle and nothing
    else: the paddle of a side changes only when that side is being dragged
    by the connection holding it, the other paddle then stays, and ball,
    scores, players and the paddles' size and [x] are never touched. *)
Theorem drag_moves_own_paddle `{JSNum} `{!JSMath} (me : string)
    (side : option Side) (pos : Point) (g : PingPong) :
  (paddleLeft (drag_paddle me side pos g) ≠ paddleLeft g →
     side = Some SideLeft ∧ playerLeft g = Some me
     ∧ paddleRight (drag_paddle me side pos g) = paddleRight g)
  ∧ (paddleRight (drag_paddle me side pos g) ≠ paddleRight g →
     side = Some SideRight ∧ playerRight g = Some me
     ∧ paddleLeft (drag_paddle me side pos g) = paddleLeft g)
  ∧ ball (drag_paddle me side pos g) = ball g
  ∧ playerLeft (drag_paddle me side pos g) = playerLeft g
  ∧ playerRight (drag_paddle me side pos g) = playerRight g
  ∧ pad_score (paddleLeft (drag_paddle me side pos g))
    = pad_score (paddleLeft g)
  ∧ pad_score (paddleRight (drag_paddle me side pos g))
    = pad_score (paddleRight g)
  ∧ pad_x (paddleLeft (drag_paddle me side pos g)) = pad_x (paddleLeft g)
  ∧ pad_x (paddleRight (drag_paddle me side pos g)) = pad_x (paddleRight g).
Proof.
  unfold drag_paddle, id_is.
  destruct (bool_decide (side = Some SideLeft)) eqn:Hsl;
    destruct (bool_decide (playerLeft g = Some me)) eqn:Hpl; cbn;
    try apply bool_decide_eq_true_1 in Hsl;
    try apply bool_decide_eq_true_1 in Hpl;
    try (by repeat split);
    destruct (bool_decide (side = Some SideRight)) eqn:Hsr;
    destruct (bool_decide (playerRight g = Some me)) eqn:Hpr; cbn;
    try apply bool_decide_eq_true_1 in Hsr;
    try apply bool_decide_eq_true_1 in Hpr;
    by repeat split.
Qed.

Lemma drag_moves_own_paddle_witness :
  let g' := drag_paddle "A" (Some SideLeft) (pt 26 300) pingpong_AB in
  (Some SideLeft = Some SideLeft ∧ playerLeft pingpong_AB = Some "A"
   ∧ paddleRight g' = paddleRight pingpong_AB)
  ∧ ball g' = ball pingpong_AB.
Proof.
  intros g'.
  destruct (drag_moves_own_paddle "A" (Some SideLeft) (pt 26 300) pingpong_AB)
    as (Hleft & _ & Hball & _).
  split; [| exact Hball].
  apply Hleft. vm_compute. discriminate.
Defined.

Lemma paddle_target_on_table (g : @PingPong QNum) (p : @Paddle QNum)
    (relativeY : Q) :
  (pad_height p <= pp_height g)%Q →
  (0 <= paddle_target g p relativeY)%Q
  ∧ (paddle_target g p relativeY <= pp_height g - pad_height p)%Q.
Proof.
  intros Hfit. unfold paddle_target. cbn.
  set (h := (relativeY - pad_height p / inject_Z 2)%Q).
  set (m := (pp_height g - pad_height p)%Q).
  assert (Hm : (0 <= m)%Q) by (exact (proj1 (Qle_minus_iff _ _) Hfit)).
  change (inject_Z 0) with 0%Q.
  destruct (Qle_bool m h) eqn:Hmin.
  - rewrite (proj2 (Qle_bool_iff 0 m) Hm). split; [exact Hm | apply Qle_refl].
  - assert (Hlt : (h < m)%Q).
    { apply Qnot_le_lt. intros Hle. apply Qle_bool_iff in Hle. congruence. }
    destruct (Qle_bool 0 h) eqn:Hmax.
    + apply Qle_bool_iff in Hmax. split; [exact Hmax | by apply Qlt_le_weak].
    + split; [apply Qle_refl | exact Hm].
Qed.

(** X26. A dragged paddle stays on the table.  In rational arithmetic, on a
    table at least as high as its paddles, a drag to any position leaves
    both paddles within the height of the table if they were within it. *)
Theorem dragged_paddle_stays_on_table (me : string) (side : option Side)
    (pos : @Point QNum) (g : @PingPong QNum) :
  (pad_height (paddleLeft g) <= pp_height g)%Q →
  (pad_height (paddleRight g) <= pp_height g)%Q →
  paddle_on_table g (paddleLeft g) →
  paddle_on_table g (paddleRight g) →
  paddle_on_table (drag_paddle me side pos g)
    (paddleLeft (drag_paddle me side pos g))
  ∧ paddle_on_table (drag_paddle me side pos g)
      (paddleRight (drag_paddle me side pos g)).
Proof.
  intros Hl Hr Hleft Hright. unfold drag_paddle.
  destruct (_ && _); [| destruct (_ && _)]; cbn; try done.
  - split; [| done]. unfold paddle_on_table. cbn.
    apply (paddle_target_on_table g (paddleLeft g)). exact Hl.
  - split; [done |]. unfold paddle_on_table. cbn.
    apply (paddle_target_on_table g (paddleRight g)). exact Hr.
Qed.

Lemma dragged_paddle_stays_on_table_witness :
  let g' := drag_paddle "A" (Some SideLeft) (pt 26 9000) pingpong_AB in
  paddle_on_table g' (paddleLeft g') ∧ paddle_on_table g' (paddleRight g').
Proof.
  apply (dragged_paddle_stays_on_table "A" (Some SideLeft) (pt 26 9000)
           pingpong_AB);
    vm_compute; try split; discriminate.
Defined.

(** ** Local changes and the server's copy *)

(** X27. Placing a game keeps client and server in step: if the server
    holds for the client's room the elements the client shows, it still
    does once it has handled what [placeGame] emitted, the new game being
    last on both sides; a game type other than the two known changes
    nothing and emits nothing. *)
Theorem placeGame_keeps_mirror `{JSNum} (gameType : string) (pos : Point)
    (now t : num) (c : Client) (s : Server) :
  mirrors c s →
  mirrors (placeGame gameType pos now c).1
    (state_of (replay (socket_id c) t (placeGame gameType pos now c).2 s))
  ∧ (gameType ≠ "tictactoe" → gameType ≠ "pingpong" →
     placeGame gameType pos now c = (c, []))
  ∧ length (paths (placeGame gameType pos now c).1)
    = length (paths c) + length (placeGame gameType pos now c).2.
Proof.
  unfold mirrors, replay, placeGame. intros Hm.
  destruct (roomStorage s !! currentRoom c) as [r|] eqn:Hr; [| done].
  cbn in Hm. injection Hm as Hm.
  destruct (decide (gameType = "tictactoe")) as [-> | Ht].
  - cbn. unfold state_of, on_new_element. rewrite Hr. cbn.
    rewrite lookup_insert_eq. cbn. rewrite Hm, length_app. done.
  - destruct (decide (gameType = "pingpong")) as [-> | Hp].
    + assert (Hloop : ∀ i c0,
        paths (startPingPongLoop i c0) = paths c0
        ∧ currentRoom (startPingPongLoop i c0) = currentRoom c0).
      { intros i c0. unfold startPingPongLoop. by destruct (bool_decide _). }
      cbn [fst snd]. destruct (Hloop (length (paths c))
        (set_paths (paths c ++ [EGame (GPingPong (new_pingpong pos now))]) c))
        as [-> ->].
      cbn. unfold state_of, on_new_element. rewrite Hr. cbn.
      rewrite lookup_insert_eq. cbn. rewrite Hm, length_app. done.
    + cbn. rewrite Hr. cbn. rewrite Hm. split; [done |].
      split; [done | lia].
Qed.

Lemma placeGame_keeps_mirror_witness :
  let c := client_showing "A" [line3] in
  let s := server_with [line3] "dots" in
  mirrors (placeGame "pingpong" (pt 0 0) (zn 5) c).1
    (state_of (replay "A" (zn 6) (placeGame "pingpong" (pt 0 0) (zn 5) c).2 s)).
Proof.
  intros c s.
  apply (placeGame_keeps_mirror "pingpong" (pt 0 0) (zn 5) (zn 6) c s).
  reflexivity.
Defined.

(** X28. Clearing clears everywhere: a confirmed [clearAll] empties the
    client's canvas; once the server has handled what it emitted, the room
    holds no elements, chat and background kept, and the one event sent on
    is a [canvas_data] that leaves every receiver whose flag is down with
    an empty canvas too.  Declined, [clearAll] does nothing. *)
Theorem clearAll_clears_everywhere `{JSNum} (c other : Client) (t : num)
    (s : Server) (r : Room) :
  roomStorage s !! currentRoom c = Some r →
  isLocalUpdate other = false →
  paths (clearAll true c).1 = []
  ∧ roomStorage (state_of (replay (socket_id c) t (clearAll true c).2 s))
      !! currentRoom c
    = Some {| elements := []; chat := chat r; background := background r |}
  ∧ (∃ data,
       emissions_of (replay (socket_id c) t (clearAll true c).2 s)
       = [ {| recipients := members s (currentRoom c) ∖ {[socket_id c]};
              message := canvas_data data |} ]
       ∧ paths (client_on_canvas_data data other) = [])
  ∧ clearAll false c = (c, []).
Proof.
  intros Hr Hflag. unfold clearAll, syncToServer, replay. cbn.
  unfold state_of, emissions_of, on_full_sync. rewrite Hr. cbn.
  rewrite lookup_insert_eq.
  split; [done |]. split; [done |]. split; [| done].
  exists []. split; [done |].
  unfold client_on_canvas_data. rewrite Hflag. cbn. by destruct (_ && _).
Qed.

Lemma clearAll_clears_everywhere_witness :
  let c := client_showing "A" [line3; image1] in
  let s := server_with [line3; image1] "grid" in
  roomStorage (state_of (replay "A" (zn 0) (clearAll true c).2 s)) !! "1"
  = Some {| elements := []; chat := []; background := "grid" |}.
Proof.
  intros c s.
  apply (clearAll_clears_everywhere c (client_showing "B" [line3; image1])
           (zn 0) s (room_of [line3; image1] "grid"));
    reflexivity.
Defined.

(** ** Throttling *)






(** ** Clicks on the canvas *)

Lemma click_tictactoe_emits `{JSNum} (me room : string) (i : nat) (pos : Point)
    (t : TicTacToe) :
  (consumed (click_tictactoe me room i pos t) = false →
     emitted (click_tictactoe me room i pos t) = [])
  ∧ ∀ ev, ev ∈ emitted (click_tictactoe me room i pos t) →
          ∃ e, ev = game_move room i (EGame e).
Proof.
  unfold click_tictactoe.
  destruct (in_bounds pos t); [| split; [done | by intros ev ?%elem_of_nil]].
  destruct (bool_decide _); [split; [done | by intros ev ?%elem_of_nil] |].
  cbv zeta.
  destruct (_ || _); [split; [done | by intros ev ?%elem_of_nil] |].
  destruct (null_cell _ _); [| split; [done | by intros ev ?%elem_of_nil]].
  cbn. split; [done |]. intros ev ->%list_elem_of_singleton. by eexists.
Qed.

Lemma click_pingpong_emits `{JSNum} (me room : string) (i : nat) (pos : Point)
    (g : PingPong) :
  (pp_consumed (click_pingpong me room i pos g) = false →
     pp_emitted (click_pingpong me room i pos g) = [])
  ∧ ∀ ev, ev ∈ pp_emitted (click_pingpong me room i pos g) →
          ∃ e, ev = game_move room i (EGame e).
Proof.
  assert (Hstart : ∀ g0 ev, ev ∈ (start_if_ready room i g0).1.2 →
                           ∃ e, ev = game_move room i (EGame e)).
  { intros g0 ev. unfold start_if_ready.
    destruct (_ && _); cbn; [| by intros ?%elem_of_nil].
    intros ->%list_elem_of_singleton. by eexists. }
  unfold click_pingpong.
  destruct (on_table pos g); [| split; [done | by intros ev ?%elem_of_nil]].
  destruct (bool_decide _); [split; [done | by intros ev ?%elem_of_nil] |].
  destruct (on_paddle pos g (paddleLeft g)).
  - destruct (negb _); cbn.
    + pose proof (Hstart (set_playerLeft (Some me) g)) as Hs.
      destruct (start_if_ready room i _) as [[g2 out2] loop]. cbn in *.
      split; [done |].
      intros ev [-> | Hin]%elem_of_cons; [by eexists | by apply Hs].
    + pose proof (Hstart g) as Hs.
      destruct (start_if_ready room i g) as [[g2 out2] loop]. cbn in *.
      split; [done | exact Hs].
  - destruct (on_paddle pos g (paddleRight g));
      [| split; [done | by intros ev ?%elem_of_nil]].
    destruct (_ && _); cbn.
    + pose proof (Hstart (set_playerRight (Some me) g)) as Hs.
      destruct (start_if_ready room i _) as [[g2 out2] loop]. cbn in *.
      split; [done |].
      intros ev [-> | Hin]%elem_of_cons; [by eexists | by apply Hs].
    + pose proof (Hstart g) as Hs.
      destruct (start_if_ready room i g) as [[g2 out2] loop]. cbn in *.
      split; [done | exact Hs].
Qed.

Lemma drop_cons_inv {A} (l rest : list A) (i : nat) (x : A) :
  drop i l = x :: rest → l !! i = Some x ∧ drop (S i) l = rest.
Proof.
  intros Hd. split.
  - rewrite <- (Nat.add_0_r i), <- lookup_drop, Hd. done.
  - rewrite <- (Nat.add_1_r i), <- drop_drop, Hd. done.
Qed.

(** The loop of [handleGameClick], from any index on. *)
Lemma game_click_from_spec `{JSNum} (rest : list Element) (i : nat)
    (pos : Point) (c : Client) :
  drop i (paths c) = rest →
  length (paths (game_click_from i rest pos c).1.1) = length (paths c)
  ∧ currentRoom (game_click_from i rest pos c).1.1 = currentRoom c
  ∧ socket_id (game_click_from i rest pos c).1.1 = socket_id c
  ∧ (∀ j e, paths c !! j = Some e → is_game e = false →
       paths (game_click_from i rest pos c).1.1 !! j = Some e)
  ∧ ((game_click_from i rest pos c).2 = false →
       (game_click_from i rest pos c).1.2 = [])
  ∧ (∀ ev, ev ∈ (game_click_from i rest pos c).1.2 →
       ∃ j e, ev = game_move (currentRoom c) j (EGame e)
              ∧ j < length (paths c)).
Proof.
  revert i c. induction rest as [|el rest' IH]; intros i c Hdrop.
  { cbn. do 5 (split; [done |]). by intros ev ?%elem_of_nil. }
  apply drop_cons_inv in Hdrop as [Hi Hrest].
  assert (Hlt : i < length (paths c)) by (by eapply lookup_lt_Some).
  assert (Hskip : ∀ c1 e1,
    c1 = set_paths (<[i := EGame e1]> (paths c)) c ∨
    (paths c1 = <[i := EGame e1]> (paths c)
     ∧ currentRoom c1 = currentRoom c ∧ socket_id c1 = socket_id c) →
    is_game el = true →
    drop (S i) (paths c1) = rest'
    ∧ length (paths c1) = length (paths c)
    ∧ ∀ j e, paths c !! j = Some e → is_game e = false →
             paths c1 !! j = Some e).
  { intros c1 e1 Hc1 Hgame.
    assert (Hp : paths c1 = <[i := EGame e1]> (paths c))
      by (destruct Hc1 as [-> | [Hp _]]; done).
    rewrite Hp. split; [by rewrite drop_insert_lt by lia |].
    split; [apply length_insert |].
    intros j e Hj He. rewrite list_lookup_insert_ne; [done |].
    intros ->. rewrite Hi in Hj. injection Hj as ->. congruence. }
  destruct el as [| | | |[t|g]];
    try (cbn [game_click_from]; by apply IH).
  - cbn [game_click_from].
    set (r := click_tictactoe (socket_id c) (currentRoom c) i pos t).
    set (c1 := set_paths _ c).
    destruct (click_tictactoe_emits (socket_id c) (currentRoom c) i pos t)
      as [Hquiet Hev]. fold r in Hquiet, Hev.
    destruct (Hskip c1 (GTicTacToe (game_after r)) (or_introl eq_refl) eq_refl)
      as (Hd1 & Hl1 & Hk1).
    destruct (consumed r) eqn:Hcons; cbn.
    + split; [done |]. split; [done |]. split; [done |]. split; [done |].
      split; [done |]. intros ev Hin. destruct (Hev ev Hin) as [e ->].
      by exists i, e.
    + destruct (IH (S i) c1 Hd1) as (I1 & I2 & I3 & I4 & I5 & I6).
      destruct (game_click_from (S i) rest' pos c1) as [[c2 out] handled].
      cbn in *. rewrite (Hquiet eq_refl). cbn.
      split; [congruence |]. split; [done |]. split; [done |].
      split; [intros j e Hj He; apply I4; [by apply Hk1 | done] |].
      split; [done |]. intros ev Hin. destruct (I6 ev Hin) as (j & e & -> & Hj).
      exists j, e. split; [done | lia].
  - cbn [game_click_from].
    set (r := click_pingpong (socket_id c) (currentRoom c) i pos g).
    set (c1 := set_paths _ c).
    set (c2 := match pp_drag r with
               | Some side => set_paddle_drag i side c1
               | None => c1
               end).
    set (c3 := if pp_loop r then startPingPongLoop i c2 else c2).
    destruct (click_pingpong_emits (socket_id c) (currentRoom c) i pos g)
      as [Hquiet Hev]. fold r in Hquiet, Hev.
    assert (Hc3 : paths c3 = <[i := EGame (GPingPong (pp_after r))]> (paths c)
                  ∧ currentRoom c3 = currentRoom c
                  ∧ socket_id c3 = socket_id c).
    { unfold c3, c2, startPingPongLoop.
      destruct (pp_loop r); destruct (pp_drag r);
        try destruct (bool_decide _); done. }
    destruct (Hskip c3 (GPingPong (pp_after r)) (or_intror Hc3) eq_refl)
      as (Hd1 & Hl1 & Hk1).
    destruct Hc3 as (_ & Hroom & Hsid).
    destruct (pp_consumed r) eqn:Hcons; cbn.
    + split; [done |]. split; [done |]. split; [done |]. split; [done |].
      split; [done |]. intros ev Hin. destruct (Hev ev Hin) as [e ->].
      by exists i, e.
    + destruct (IH (S i) c3 Hd1) as (I1 & I2 & I3 & I4 & I5 & I6).
      destruct (game_click_from (S i) rest' pos c3) as [[c4 out] handled].
      cbn in *. rewrite (Hquiet eq_refl). cbn.
      split; [congruence |]. split; [congruence |]. split; [congruence |].
      split; [intros j e Hj He; apply I4; [by apply Hk1 | done] |].
      split; [done |]. intros ev Hin. destruct (I6 ev Hin) as (j & e & -> & Hj).
      exists j, e. split; [congruence | lia].
Qed.

(** X30. A click on the games rearranges nothing: [handleGameClick] leaves
    the number of elements as it is and every element that is no game
    untouched; what it emits are [game_move] events into the client's room
    at indices of the canvas; and when it returns [false] it has emitted
    nothing. *)
Theorem handleGameClick_keeps_canvas `{JSNum} (pos : Point) (c : Client) :
  length (paths (handleGameClick pos c).1.1) = length (paths c)
  ∧ (∀ j e, paths c !! j = Some e → is_game e = false →
       paths (handleGameClick pos c).1.1 !! j = Some e)
  ∧ ((handleGameClick pos c).2 = false → (handleGameClick pos c).1.2 = [])
  ∧ (∀ ev, ev ∈ (handleGameClick pos c).1.2 →
       ∃ j e, ev = game_move (currentRoom c) j (EGame e)
              ∧ j < length (paths c)).
Proof.
  unfold handleGameClick.
  destruct (game_click_from_spec (paths c) 0 pos c eq_refl)
    as (H1 & _ & _ & H4 & H5 & H6).
  done.
Qed.

Lemma handleGameClick_keeps_canvas_witness :
  let c := client_showing "A" [line3; EGame (GTicTacToe tictactoe_100)] in
  paths (handleGameClick (pt 250 250) c).1.1 !! 0 = Some line3.
Proof.
  intros c.
  apply (handleGameClick_keeps_canvas (pt 250 250) c); reflexivity.
Defined.
